(** * CustomPrint Studio API: request validation, document mapping, seeding

    A shallow embedding of [main.py] and [schemas.py].

    - Python values held by request bodies and by stored documents are the
      inductive [value]; a document (a Python [dict]) is a [gmap string value].
    - Python strings are kept as their UTF-8 bytes, so that the literal titles
      of the demo products are the literals of the source.
    - What the program takes from its libraries without defining it (the
      [str] built-in on arbitrary objects, pydantic's coercion of a raw value
      to a declared field type, the driver's sort order) is the interface
      [Runtime]; the program is stated over any implementation of it.
    - Handlers that touch the store or the clock are computations of the
      monad [M]: a function of the [World] returning a result or a raised
      exception together with the new world. *)

From Stdlib Require Import ZArith Floats.
From stdpp Require Import base option list strings pretty gmap.

Local Open Scope string_scope.
Local Open Scope Z_scope.

(** ** Values and documents *)

Inductive value :=
| VNone
| VBool (b : bool)
| VInt (n : Z)
| VFloat (x : float)
| VStr (s : string)
| VDatetime (t : Z)
| VObjectId (o : N).

Abbreviation Doc := (gmap string value).

(** [doc.get(key)] *)
Definition dict_get (doc : Doc) (key : string) : value :=
  default VNone (doc !! key).

(** [doc.get(key, dflt)] *)
Definition dict_get_default (doc : Doc) (key : string) (dflt : value) : value :=
  default dflt (doc !! key).

(** [bool(v)]: Python truthiness. *)
Definition py_bool (v : value) : bool :=
  match v with
  | VNone => false
  | VBool b => b
  | VInt n => negb (n =? 0)
  | VFloat x => negb (PrimFloat.eqb x 0%float)
  | VStr s => negb (String.eqb s "")
  | VDatetime _ => true
  | VObjectId _ => true
  end.

(** ** Validation errors

    pydantic reports every offending field, each with its location and the
    kind of failure. *)

Inductive error_kind :=
| missing
| string_type
| int_type
| float_type
| value_error_email
| greater_than_equal (bound : Z)
| literal_error (expected : list string).

Record field_error := FieldError { loc : string; kind : error_kind }.

Definition ValidationError := list field_error.

Inductive Exception :=
| PyMongoError
| PydanticError (errors : ValidationError)
| OtherError (msg : string)
| HTTPException (status_code : Z) (detail : string).

(** ** Library interface *)

Class Runtime := {
  (** [str(v)] *)
  py_str : value → string;
  py_str_None : py_str VNone = "None";
  py_str_str : ∀ s, py_str (VStr s) = s;
  (** a field declared [str] *)
  coerce_str : value → option string;
  coerce_str_str : ∀ s, coerce_str (VStr s) = Some s;
  (** a field declared [int] *)
  coerce_int : value → option Z;
  coerce_int_int : ∀ n, coerce_int (VInt n) = Some n;
  (** a field declared [float] *)
  coerce_float : value → option float;
  coerce_float_float : ∀ x, coerce_float (VFloat x) = Some x;
  (** a field declared [EmailStr], once the input is a string: the
      normalised address, or nothing when the syntax is wrong *)
  validate_email : string → option string;
  (** the driver's order on stored values, which decides equality filters
      and [sort] *)
  bson_leb : value → value → bool;
  (** [str(e)] of a raised exception *)
  exc_str : Exception → string;
}.

Section Models.
Context `{Runtime}.

(** ** Field validators *)

(** [f: str] *)
Definition field_str (name : string) (v : value) : field_error + string :=
  match coerce_str v with
  | Some s => inr s
  | None => inl (FieldError name string_type)
  end.

(** [f: Optional[str]] *)
Definition field_opt_str (name : string) (v : value)
  : field_error + option string :=
  match v with
  | VNone => inr None
  | _ => match coerce_str v with
         | Some s => inr (Some s)
         | None => inl (FieldError name string_type)
         end
  end.

(** [f: Optional[float]] *)
Definition field_opt_float (name : string) (v : value)
  : field_error + option float :=
  match v with
  | VNone => inr None
  | _ => match coerce_float v with
         | Some x => inr (Some x)
         | None => inl (FieldError name float_type)
         end
  end.

(** the errors of one field, as a list to be concatenated *)
Definition errs {A} (r : field_error + A) : ValidationError :=
  match r with inl e => [e] | inr _ => [] end.

(** the record of a validation, when it succeeds *)
Definition validation_result {A} (r : ValidationError + A) : option A :=
  match r with inl _ => None | inr a => Some a end.

(** the errors of a validation, none when it succeeds *)
Definition validation_errors {A} (r : ValidationError + A) : ValidationError :=
  match r with inl errors => errors | inr _ => [] end.

(** ** ProductOut *)

Record ProductOut := mkProductOut {
  po_id : string;
  po_title : string;
  po_description : option string;
  po_price : option float;
  po_category : string;
  po_image : option string;
  po_featured : bool;
}.

(** Construction of a [ProductOut] from keyword arguments. [id] and
    [featured] are given as a Python [str] and a Python [bool], which their
    fields take as they are. *)
Definition ProductOut_new (id : string) (title description price category
  image : value) (featured : bool) : ValidationError + ProductOut :=
  let rt := field_str "title" title in
  let rd := field_opt_str "description" description in
  let rp := field_opt_float "price" price in
  let rc := field_str "category" category in
  let ri := field_opt_str "image" image in
  match rt, rd, rp, rc, ri with
  | inr t, inr d, inr p, inr c, inr i =>
      inr (mkProductOut id t d p c i featured)
  | _, _, _, _, _ =>
      inl (errs rt ++ errs rd ++ errs rp ++ errs rc ++ errs ri)%list
  end.

Definition _to_product_out (doc : Doc) : ValidationError + ProductOut :=
  ProductOut_new
    (py_str (dict_get doc "_id"))
    (dict_get_default doc "title" (VStr "Untitled"))
    (dict_get doc "description")
    (dict_get doc "price")
    (dict_get_default doc "category" (VStr "General"))
    (dict_get doc "image")
    (py_bool (dict_get_default doc "featured" (VBool false))).

End Models.

(** ** The world: store and clock

    [database.db] is [None] when the store is not configured. A configured
    store holds its collections, each a list of documents in insertion
    order. Every call of the driver may fail: [fault d n] is the outcome of
    the [n]-th call, [None] when it succeeds and [Some k] when it raises, an
    insert having written [k] documents by then. [fresh_oid] gives the
    identifiers the driver assigns; [clock] gives the successive readings of
    [datetime.utcnow()]. *)

Record Database := mkDatabase {
  collections : gmap string (list Doc);
  fault : nat → option nat;
  calls : nat;
  fresh_oid : nat → N;
  assigned : nat;
}.

Record World := mkWorld {
  db : option Database;
  clock : nat → Z;
  reads : nat;
}.

Definition M (A : Type) : Type := World → (Exception + A) * World.

#[export] Instance M_ret : MRet M := λ A a w, (inr a, w).

#[export] Instance M_bind : MBind M := λ A B k m w,
  match m w with
  | (inr a, w') => k a w'
  | (inl e, w') => (inl e, w')
  end.

Definition raise {A} (e : Exception) : M A := λ w, (inl e, w).

(** [try: body except Exception as e: handler(e)] *)
Definition try_except {A} (body : M A) (handler : Exception → M A) : M A :=
  λ w, match body w with
       | (inr a, w') => (inr a, w')
       | (inl e, w') => handler e w'
       end.

(** the global [db] *)
Definition get_db : M (option Database) := λ w, (inr (db w), w).

(** [datetime.utcnow()] *)
Definition utcnow : M Z :=
  λ w, (inr (clock w (reads w)), mkWorld (db w) (clock w) (S (reads w))).

(** *** The driver

    The calls of pymongo that the program makes, on the store above. *)

Definition collection (d : Database) (name : string) : list Doc :=
  default [] (collections d !! name).

(** one round trip to the server *)
Definition called (d : Database) : Database :=
  mkDatabase (collections d) (fault d) (S (calls d)) (fresh_oid d) (assigned d).

(** [db[name].count_documents({})] *)
Definition count_documents (name : string) (d : Database)
  : (Exception + Z) * Database :=
  match fault d (calls d) with
  | Some _ => (inl PyMongoError, called d)
  | None => (inr (Z.of_nat (length (collection d name))), called d)
  end.

(** a document without [_id] is given a fresh one *)
Definition assign_id (acc : list Doc * nat) (fresh : nat → N) (doc : Doc)
  : list Doc * nat :=
  match doc !! "_id" with
  | Some _ => (acc.1 ++ [doc], acc.2)%list
  | None => (acc.1 ++ [<["_id" := VObjectId (fresh acc.2)]> doc], S acc.2)%list
  end.

Definition assign_ids (docs : list Doc) (fresh : nat → N) (n : nat)
  : list Doc * nat :=
  fold_left (λ acc doc, assign_id acc fresh doc) docs ([], n).

(** [db[name].insert_many(docs)] *)
Definition insert_many (name : string) (docs : list Doc) (d : Database)
  : (Exception + unit) * Database :=
  let '(docs', n) := assign_ids docs (fresh_oid d) (assigned d) in
  let written k :=
    mkDatabase (<[name := (collection d name ++ take k docs')%list]>
                  (collections d))
      (fault d) (S (calls d)) (fresh_oid d) n in
  match fault d (calls d) with
  | Some k => (inl PyMongoError, written k)
  | None => (inr tt, written (length docs'))
  end.

Section Handlers.
Context `{Runtime}.

(** [a == b] in the driver's order *)
Definition bson_eqb (a b : value) : bool := bson_leb a b && bson_leb b a.

(** an equality filter: every key of the query is in the document with an
    equal value *)
Definition matches (query doc : Doc) : bool :=
  forallb (λ kv, match doc !! kv.1 with
                 | Some v => bson_eqb kv.2 v
                 | None => false
                 end) (map_to_list query).

Fixpoint insert_desc (key : string) (doc : Doc) (sorted : list Doc)
  : list Doc :=
  match sorted with
  | [] => [doc]
  | x :: rest =>
      if bson_leb (dict_get x key) (dict_get doc key)
      then doc :: sorted
      else x :: insert_desc key doc rest
  end.

(** [.sort(key, -1)] *)
Definition sort_desc (key : string) (docs : list Doc) : list Doc :=
  foldr (insert_desc key) [] docs.

(** [list(db[name].find(query).sort(key, -1))] *)
Definition find_sorted (name : string) (query : Doc) (key : string)
  (d : Database) : (Exception + list Doc) * Database :=
  match fault d (calls d) with
  | Some _ => (inl PyMongoError, called d)
  | None =>
      (inr (sort_desc key (filter (λ doc, matches query doc = true)
                             (collection d name))), called d)
  end.

(** a call on the configured store [db] *)
Definition on_db {A} (op : Database → (Exception + A) * Database) : M A :=
  λ w, match db w with
       | Some d => let '(r, d') := op d in
                   (r, mkWorld (Some d') (clock w) (reads w))
       | None => (inl (OtherError "'NoneType' object is not subscriptable"), w)
       end.

(** ** Lifecycle: seed featured products if empty *)

Definition demo_products : list Doc := [
  list_to_map [
    ("title", VStr "Precision Laser‑Cut Signage");
    ("description", VStr "Crisp edges in acrylic/wood with custom finishes.");
    ("price", VFloat 149.0);
    ("category", VStr "2D Laser-cut");
    ("image", VStr "https://images.unsplash.com/photo-1518779578993-ec3579fee39f?q=80&w=1600&auto=format&fit=crop");
    ("featured", VBool true)];
  list_to_map [
    ("title", VStr "3D Trophy – Metallic Finish");
    ("description", VStr "Award‑ready trophies with premium 3D look.");
    ("price", VFloat 249.0);
    ("category", VStr "3D Trophy");
    ("image", VStr "https://images.unsplash.com/photo-1513451713350-dee890297c4a?q=80&w=1600&auto=format&fit=crop");
    ("featured", VBool true)];
  list_to_map [
    ("title", VStr "3D‑Style Product Mockup");
    ("description", VStr "Stand‑out visuals for packaging and promos.");
    ("price", VFloat 99.0);
    ("category", VStr "3D Mockup");
    ("image", VStr "https://images.unsplash.com/photo-1485827404703-89b55fcc595e?q=80&w=1600&auto=format&fit=crop");
    ("featured", VBool true)];
  list_to_map [
    ("title", VStr "Custom Keychains");
    ("description", VStr "Personalised laser‑cut keychains in bulk.");
    ("price", VFloat 5.0);
    ("category", VStr "2D Laser-cut");
    ("image", VStr "https://images.unsplash.com/photo-1520975922133-0f775525ae37?q=80&w=1600&auto=format&fit=crop");
    ("featured", VBool false)]
].

(** the body of the loop [for p in demo_products] *)
Definition stamp (p : Doc) : M Doc :=
  created ← utcnow;
  let p := <["created_at" := VDatetime created]> p in
  updated ← utcnow;
  let p := <["updated_at" := VDatetime updated]> p in
  mret p.

(** the body of the [try] *)
Definition seed_products_body : M unit :=
  d ← get_db;
  match d with
  | None => mret tt
  | Some _ =>
      count ← on_db (count_documents "product");
      if count =? 0 then
        stamped ← mapM stamp demo_products;
        on_db (insert_many "product" stamped)
      else mret tt
  end.

Definition seed_products_if_needed : M unit :=
  try_except seed_products_body (λ _, mret tt).

(** ** Products *)

Definition fallback : list Doc := [
  list_to_map [
    ("_id", VStr "0");
    ("title", VStr "Sample Product");
    ("description",
      VStr "Configure DATABASE_URL and DATABASE_NAME to load real items.");
    ("category", VStr "General");
    ("image", VNone);
    ("featured", VBool true)]
].

(** the [query] dictionary that [list_products] builds *)
Definition products_query (featured : option bool) (category : option string)
  : Doc :=
  let query : Doc := ∅ in
  let query :=
    match featured with
    | Some b => <["featured" := VBool b]> query
    | None => query
    end in
  let query :=
    match category with
    | Some c => if py_bool (VStr c) then <["category" := VStr c]> query
                else query
    | None => query
    end in
  query.

(** a [ProductOut] that fails to validate raises *)
Definition call_to_product_out (doc : Doc) : M ProductOut :=
  match _to_product_out doc with
  | inr out => mret out
  | inl errors => raise (PydanticError errors)
  end.

Definition list_products (featured : option bool) (category : option string)
  : M (list ProductOut) :=
  d ← get_db;
  match d with
  | None => mapM call_to_product_out fallback
  | Some _ =>
      let query := products_query featured category in
      docs ← on_db (find_sorted "product" query "created_at");
      mapM call_to_product_out docs
  end.


(** ** Enquiries *)

(** The nine fields that [main.EnquiryIn] and [schemas.Enquiry] both
    declare; the two classes differ in the annotation of [product_type]. *)
Record EnquiryIn := mkEnquiryIn {
  name : string;
  email : string;
  phone : option string;
  company : option string;
  product_type : string;
  quantity : option Z;
  budget_range : option string;
  message : string;
  reference_url : option string;
}.

(** a field without default: the key must be there *)
Definition required {A} (raw : Doc) (key : string)
  (field : string → value → field_error + A) : field_error + A :=
  match raw !! key with
  | Some v => field key v
  | None => inl (FieldError key missing)
  end.

(** a field with default [None] *)
Definition optional {A} (raw : Doc) (key : string)
  (field : string → value → field_error + option A)
  : field_error + option A :=
  match raw !! key with
  | Some v => field key v
  | None => inr None
  end.

(** [f: EmailStr] *)
Definition field_email (key : string) (v : value) : field_error + string :=
  match coerce_str v with
  | Some s => match validate_email s with
              | Some e => inr e
              | None => inl (FieldError key value_error_email)
              end
  | None => inl (FieldError key string_type)
  end.

(** [f: Optional[int] = Field(None, ge=bound)] *)
Definition field_opt_int_ge (bound : Z) (key : string) (v : value)
  : field_error + option Z :=
  match v with
  | VNone => inr None
  | _ => match coerce_int v with
         | Some n => if bound <=? n then inr (Some n)
                     else inl (FieldError key (greater_than_equal bound))
         | None => inl (FieldError key int_type)
         end
  end.

(** [f: Literal[...]] *)
Definition field_literal (expected : list string) (key : string) (v : value)
  : field_error + string :=
  match v with
  | VStr s => if bool_decide (s ∈ expected) then inr s
              else inl (FieldError key (literal_error expected))
  | _ => inl (FieldError key (literal_error expected))
  end.

Definition product_types : list string :=
  ["2D Laser-cut"; "3D Trophy"; "3D Mockup"; "Other"].

(** validation of a request body against the nine fields, [product_type]
    being checked by [field_product_type] *)
Definition validate_enquiry
  (field_product_type : string → value → field_error + string) (raw : Doc)
  : ValidationError + EnquiryIn :=
  let r_name := required raw "name" field_str in
  let r_email := required raw "email" field_email in
  let r_phone := optional raw "phone" field_opt_str in
  let r_company := optional raw "company" field_opt_str in
  let r_product_type := required raw "product_type" field_product_type in
  let r_quantity := optional raw "quantity" (field_opt_int_ge 1) in
  let r_budget_range := optional raw "budget_range" field_opt_str in
  let r_message := required raw "message" field_str in
  let r_reference_url := optional raw "reference_url" field_opt_str in
  match r_name, r_email, r_phone, r_company, r_product_type, r_quantity,
        r_budget_range, r_message, r_reference_url with
  | inr n, inr e, inr p, inr c, inr t, inr q, inr b, inr m, inr u =>
      inr (mkEnquiryIn n e p c t q b m u)
  | _, _, _, _, _, _, _, _, _ =>
      inl (errs r_name ++ errs r_email ++ errs r_phone ++ errs r_company ++
           errs r_product_type ++ errs r_quantity ++ errs r_budget_range ++
           errs r_message ++ errs r_reference_url)%list
  end.

(** [main.EnquiryIn]: [product_type: str] *)
Definition EnquiryIn_validate : Doc → ValidationError + EnquiryIn :=
  validate_enquiry field_str.

(** [schemas.Enquiry]:
    [product_type: Literal['2D Laser-cut','3D Trophy','3D Mockup','Other']] *)
Definition Enquiry_validate : Doc → ValidationError + EnquiryIn :=
  validate_enquiry (field_literal product_types).

Record EnquiryOut := mkEnquiryOut {
  eo_id : string;
  eo_created_at : Z;
}.

Section CreateEnquiry.

(** [database.create_document], which [main.py] imports *)
Variable create_document : string → EnquiryIn → M string.

Definition create_enquiry (payload : EnquiryIn) : M EnquiryOut :=
  try_except
    (inserted_id ← create_document "enquiry" payload;
     created_at ← utcnow;
     mret (mkEnquiryOut inserted_id created_at))
    (λ e, raise (HTTPException 500 ("Failed to submit: " +:+ exc_str e))).

(** What the client of [POST /api/enquiries] gets. *)
Inductive Response :=
| Created (body : EnquiryOut)
| UnprocessableEntity (detail : ValidationError)
| Failed (status_code : Z) (detail : string)
| InternalServerError.

(** what the framework answers for the outcome of the handler *)
Definition respond (outcome : (Exception + EnquiryOut) * World)
  : Response * World :=
  match outcome with
  | (inr out, w') => (Created out, w')
  | (inl (HTTPException status_code detail), w') =>
      (Failed status_code detail, w')
  | (inl _, w') => (InternalServerError, w')
  end.

(** The route: the body is validated against the parameter's model
    [EnquiryIn]; an invalid body is answered with status 422 and the handler
    is not called. *)
Definition post_enquiries (raw : Doc) (w : World) : Response * World :=
  match EnquiryIn_validate raw with
  | inl errors => (UnprocessableEntity errors, w)
  | inr payload => respond (create_enquiry payload w)
  end.

End CreateEnquiry.

End Handlers.

(** ** [database.create_document] *)

(** [data.model_dump()] *)
Definition model_dump (data : EnquiryIn) : Doc :=
  let opt_str o := match o with Some s => VStr s | None => VNone end in
  list_to_map [
    ("name", VStr (name data));
    ("email", VStr (email data));
    ("phone", opt_str (phone data));
    ("company", opt_str (company data));
    ("product_type", VStr (product_type data));
    ("quantity", match quantity data with Some n => VInt n | None => VNone end);
    ("budget_range", opt_str (budget_range data));
    ("message", VStr (message data));
    ("reference_url", opt_str (reference_url data))].

(** [db[name].insert_one(doc).inserted_id] *)
Definition insert_one (name : string) (doc : Doc) (d : Database)
  : (Exception + value) * Database :=
  let '(docs', n) := assign_ids [doc] (fresh_oid d) (assigned d) in
  match fault d (calls d) with
  | Some _ =>
      (inl PyMongoError,
       mkDatabase (collections d) (fault d) (S (calls d)) (fresh_oid d) n)
  | None =>
      (inr (dict_get (default doc (head docs')) "_id"),
       mkDatabase (<[name := (collection d name ++ docs')%list]> (collections d))
         (fault d) (S (calls d)) (fresh_oid d) n)
  end.

(** Modelled from the spec: [database.py], which defines [create_document],
    is not among the sources. By sections 6, 7 and 9 of the specification it
    inserts one document, made of the record's fields, into the collection
    named after the record kind, and returns the generated identifier as
    text; when the store is not configured it fails. *)
Definition create_document `{Runtime} (collection_name : string)
  (data : EnquiryIn) : M string :=
  d ← get_db;
  match d with
  | None => raise (OtherError "Database not available")
  | Some _ =>
      inserted_id ← on_db (insert_one collection_name (model_dump data));
      mret (py_str inserted_id)
  end.

(** ** An implementation of the interface

    Enough of the library to run the program on examples: a [str] or
    [float] field takes values of its own type only, an [int] field also
    takes what pydantic coerces to an integer, an address is accepted
    when it reads [local@domain.tld], and values are ordered by kind, then
    by content. [str] of a datetime or of an object id is its number in
    decimal, and [str] of a float that is not whole is its mantissa and
    exponent, not Python's rendering. *)

Module Sample.

Definition float_str (x : float) : string :=
  match Prim2SF x with
  | SpecFloat.S754_zero sign => if sign then "-0.0" else "0.0"
  | SpecFloat.S754_infinity sign => if sign then "-inf" else "inf"
  | SpecFloat.S754_nan => "nan"
  | SpecFloat.S754_finite sign m e =>
      let whole := Z.shiftl (Z.pos m) e in
      (if sign then "-" else "") +:+
      (if Z.shiftl whole (- e) =? Z.pos m then pretty whole +:+ ".0"
       else pretty (Z.pos m) +:+ "p" +:+ pretty e)
  end.

Definition str (v : value) : string :=
  match v with
  | VNone => "None"
  | VBool true => "True"
  | VBool false => "False"
  | VInt n => pretty n
  | VFloat x => float_str x
  | VStr s => s
  | VDatetime t => pretty t
  | VObjectId o => pretty o
  end.

Definition to_str (v : value) : option string :=
  match v with VStr s => Some s | _ => None end.

(** the integer that a float without fractional part is *)
Definition float_to_int (x : float) : option Z :=
  match Prim2SF x with
  | SpecFloat.S754_zero _ => Some 0
  | SpecFloat.S754_finite sign m e =>
      let whole := Z.shiftl (Z.pos m) e in
      if Z.shiftl whole (- e) =? Z.pos m
      then Some (if sign then - whole else whole)
      else None
  | _ => None
  end.

Definition digit (c : Ascii.ascii) : option Z :=
  let n := Z.of_N (Ascii.N_of_ascii c) in
  if (48 <=? n) && (n <=? 57) then Some (n - 48) else None.

Fixpoint digits (acc : Z) (s : string) : option Z :=
  match s with
  | EmptyString => Some acc
  | String c rest =>
      match digit c with
      | Some d => digits (10 * acc + d) rest
      | None => None
      end
  end.

(** the integer that a decimal numeral, with or without sign, writes;
    45 and 43 are the codes of [-] and [+] *)
Definition numeral (s : string) : option Z :=
  match s with
  | EmptyString => None
  | String c rest =>
      if (Ascii.N_of_ascii c =? 45)%N then
        match rest with
        | EmptyString => None
        | _ => Z.opp <$> digits 0 rest
        end
      else if (Ascii.N_of_ascii c =? 43)%N then
        match rest with
        | EmptyString => None
        | _ => digits 0 rest
        end
      else digits 0 s
  end.

(** a field declared [int], in pydantic's default (lax) mode: an integer,
    a boolean as 0 or 1, a float without fractional part, a string that is
    a decimal numeral *)
Definition to_int (v : value) : option Z :=
  match v with
  | VInt n => Some n
  | VBool b => Some (if b then 1 else 0)
  | VFloat x => float_to_int x
  | VStr s => numeral s
  | _ => None
  end.

Definition to_float (v : value) : option float :=
  match v with VFloat x => Some x | _ => None end.

Definition has_dot (s : string) : bool :=
  match String.index 1 "." s with
  | Some i => Nat.ltb (S i) (String.length s)
  | None => false
  end.

Definition to_email (s : string) : option string :=
  match String.index 0 "@" s with
  | Some (S i) =>
      let domain := String.substring (S (S i)) (String.length s) s in
      match String.index 0 "@" domain with
      | Some _ => None
      | None => if has_dot domain then Some s else None
      end
  | _ => None
  end.

Definition rank (v : value) : Z :=
  match v with
  | VNone => 0
  | VInt _ | VFloat _ => 1
  | VStr _ => 2
  | VObjectId _ => 3
  | VBool _ => 4
  | VDatetime _ => 5
  end.

Definition of_int (n : Z) : float :=
  SF2Prim (SpecFloat.binary_normalize prec emax n 0 false).

Definition leb (a b : value) : bool :=
  match a, b with
  | VInt m, VInt n => m <=? n
  | VFloat x, VFloat y => PrimFloat.leb x y
  | VInt m, VFloat y => PrimFloat.leb (of_int m) y
  | VFloat x, VInt n => PrimFloat.leb x (of_int n)
  | VStr s, VStr t => bool_decide (String.leb s t = true)
  | VObjectId o, VObjectId p => (o <=? p)%N
  | VBool x, VBool y => implb x y
  | VDatetime t, VDatetime u => t <=? u
  | _, _ => rank a <=? rank b
  end.

Definition exception_str (e : Exception) : string :=
  match e with
  | PyMongoError => "store operation failed"
  | PydanticError _ => "validation error"
  | OtherError msg => msg
  | HTTPException _ detail => detail
  end.

#[export] Instance runtime : Runtime := {|
  py_str := str;
  py_str_None := eq_refl;
  py_str_str := λ _, eq_refl;
  coerce_str := to_str;
  coerce_str_str := λ _, eq_refl;
  coerce_int := to_int;
  coerce_int_int := λ _, eq_refl;
  coerce_float := to_float;
  coerce_float_float := λ _, eq_refl;
  validate_email := to_email;
  bson_leb := leb;
  exc_str := exception_str;
|}.

End Sample.

(** ** Health / DB test *)

(** [s[:n]]: the first [n] characters of [s]. A character is a byte that is
    not a continuation byte of UTF-8, with the continuation bytes after it. *)
Definition is_continuation (c : Ascii.ascii) : bool :=
  let b := Ascii.N_of_ascii c in ((128 <=? b) && (b <? 192))%N.

Fixpoint py_slice_to (n : nat) (s : string) : string :=
  match s with
  | EmptyString => EmptyString
  | String c rest =>
      if is_continuation c then String c (py_slice_to n rest)
      else match n with
           | O => EmptyString
           | S n' => String c (py_slice_to n' rest)
           end
  end.

(** [len(s)] *)
Fixpoint py_len (s : string) : nat :=
  match s with
  | EmptyString => O
  | String c rest =>
      if is_continuation c then py_len rest else S (py_len rest)
  end.

(** the dictionary that [test_database] returns *)
Record HealthResponse := mkHealthResponse {
  r_backend : string;
  r_database : string;
  r_database_url : string;
  r_database_name : string;
  r_connection_status : string;
  r_collections : list string;
}.

(** [response[key] = ...] for the keys that the handler assigns *)
Definition set_database (text : string) (r : HealthResponse) : HealthResponse :=
  mkHealthResponse (r_backend r) text (r_database_url r) (r_database_name r)
    (r_connection_status r) (r_collections r).

Definition set_database_url (text : string) (r : HealthResponse)
  : HealthResponse :=
  mkHealthResponse (r_backend r) (r_database r) text (r_database_name r)
    (r_connection_status r) (r_collections r).

Definition set_database_name (text : string) (r : HealthResponse)
  : HealthResponse :=
  mkHealthResponse (r_backend r) (r_database r) (r_database_url r) text
    (r_connection_status r) (r_collections r).

Definition set_connection_status (text : string) (r : HealthResponse)
  : HealthResponse :=
  mkHealthResponse (r_backend r) (r_database r) (r_database_url r)
    (r_database_name r) text (r_collections r).

Definition set_collections (names : list string) (r : HealthResponse)
  : HealthResponse :=
  mkHealthResponse (r_backend r) (r_database r) (r_database_url r)
    (r_database_name r) (r_connection_status r) names.

(** [db.list_collection_names()] *)
Definition list_collection_names (d : Database)
  : (Exception + list string) * Database :=
  match fault d (calls d) with
  | Some _ => (inl PyMongoError, called d)
  | None => (inr ((map_to_list (collections d)).*1), called d)
  end.

Section Health.
Context `{Runtime}.

(** [os.getenv] *)
Variable getenv : string → option string.

(** [db.name], when the object has the attribute *)
Variable name_of : Database → option string.

(** The statements outside the inner [try] raise nothing here, so that the
    outer handler is never reached; it is given the response as first
    built. *)
Definition test_database : M HealthResponse :=
  let response :=
    mkHealthResponse "✅ Running" "❌ Not Available" "❌ Not Set" "❌ Not Set"
      "Not Connected" [] in
  try_except
    (d ← get_db;
     match d with
     | Some d =>
         let response := set_database "✅ Available" response in
         let response :=
           set_database_url
             (if py_bool (from_option VStr VNone (getenv "DATABASE_URL"))
              then "✅ Set" else "❌ Not Set") response in
         let response :=
           set_database_name (default "✅ Connected" (name_of d)) response in
         let response := set_connection_status "Connected" response in
         try_except
           (collections ← on_db list_collection_names;
            let response := set_collections (take 10 collections) response in
            let response := set_database "✅ Connected & Working" response in
            mret response)
           (λ e,
              mret (set_database
                      ("⚠️ Connected but Error: " +:+ py_slice_to 50 (exc_str e))
                      response))
     | None => mret response
     end)
    (λ e,
       mret (set_database ("❌ Error: " +:+ py_slice_to 50 (exc_str e))
               response)).

End Health.

(** the documents of a collection of the world's store *)
Definition stored (name : string) (w : World) : list Doc :=
  from_option (λ d, collection d name) [] (db w).

(** the fields of an enquiry *)
Definition enquiry_fields : list string :=
  ["name"; "email"; "phone"; "company"; "product_type"; "quantity";
   "budget_range"; "message"; "reference_url"].

(** a field validator reports its error at its own key *)
Definition located {A} (field : string → value → field_error + A) : Prop :=
  ∀ key v e, field key v = inl e → loc e = key.

(** ** Inputs and notions of the statements *)

(** a store that never fails and holds nothing *)
Definition store_empty : Database :=
  mkDatabase ∅ (λ _, None) 0 N.of_nat 0.

(** a clock that advances at every reading *)
Definition world_unconfigured : World := mkWorld None Z.of_nat 0.

Definition world_empty_store : World := mkWorld (Some store_empty) Z.of_nat 0.

(** an empty store whose second call, the insert of the seeder, fails
    before anything is written *)
Definition world_failing_insert : World :=
  mkWorld
    (Some (mkDatabase ∅ (λ n, if decide (n = 1%nat) then Some 0%nat else None)
             0 N.of_nat 0))
    Z.of_nat 0.

(** what the loop of the seeder makes of [docs], the clock being read
    [n] times before *)
Fixpoint stamped (clock : nat → Z) (n : nat) (docs : list Doc) : list Doc :=
  match docs with
  | [] => []
  | p :: rest =>
      <["updated_at" := VDatetime (clock (S n))]>
        (<["created_at" := VDatetime (clock n)]> p)
      :: stamped clock (S (S n)) rest
  end.

(** the first demo product as the store returns it *)
Definition product_complete : Doc :=
  <["_id" := VObjectId 7]> (default ∅ (head demo_products)).

Definition enquiry_unlisted : Doc :=
  list_to_map [
    ("name", VStr "A");
    ("email", VStr "a@b.com");
    ("product_type", VStr "Banana");
    ("message", VStr "hi")].

Definition enquiry_nameless : Doc :=
  list_to_map [
    ("email", VStr "a@b.com");
    ("product_type", VStr "Other");
    ("message", VStr "hi")].

(** A stored product: a document whose fields, where it has them, hold
    values of the types that the product schema writes ([schemas.Product]):
    text for [title] and [category], text or [None] for [description] and
    [image], a float or [None] for [price]. Any of the fields may be
    missing; [_id], [featured] and the other keys are free. *)
Definition is_str (v : value) : bool :=
  match v with VStr _ => true | _ => false end.

Definition is_opt_str (v : value) : bool :=
  match v with VStr _ | VNone => true | _ => false end.

Definition is_opt_float (v : value) : bool :=
  match v with VFloat _ | VNone => true | _ => false end.

Definition ok_at (doc : Doc) (key : string) (ok : value → bool) : bool :=
  from_option ok true (doc !! key).

Definition stored_product (doc : Doc) : bool :=
  ok_at doc "title" is_str && ok_at doc "description" is_opt_str &&
  ok_at doc "price" is_opt_float && ok_at doc "category" is_str &&
  ok_at doc "image" is_opt_str.

(** A document that [ProductOut] accepts: each checked field that the
    document has is taken by the type of the field. *)
Definition accepted `{Runtime} (doc : Doc) : Prop :=
  (∀ v, doc !! "title" = Some v → is_Some (coerce_str v)) ∧
  (∀ v, doc !! "description" = Some v → v = VNone ∨ is_Some (coerce_str v)) ∧
  (∀ v, doc !! "price" = Some v → v = VNone ∨ is_Some (coerce_float v)) ∧
  (∀ v, doc !! "category" = Some v → is_Some (coerce_str v)) ∧
  (∀ v, doc !! "image" = Some v → v = VNone ∨ is_Some (coerce_str v)).


(** the keys of a document that the mapper reads *)
Definition read_keys : list string :=
  ["_id"; "title"; "description"; "price"; "category"; "image"; "featured"].

(** the fields of [ProductOut] that are checked, in the order of the class *)
Definition checked_fields : list string :=
  ["title"; "description"; "price"; "category"; "image"].

(** the fields of an enquiry without default, and those with default *)
Definition required_fields : list string :=
  ["name"; "email"; "product_type"; "message"].

Definition optional_fields : list string :=
  ["phone"; "company"; "quantity"; "budget_range"; "reference_url"].

(** a store, empty, that cannot be reached *)
Definition store_unreachable : Database :=
  mkDatabase ∅ (λ _, Some 0%nat) 0 N.of_nat 0.

Definition world_unreachable : World :=
  mkWorld (Some store_unreachable) Z.of_nat 0.

(** the empty store once seeded *)
Definition world_seeded : World :=
  (seed_products_if_needed world_empty_store).2.

Definition store_seeded : Database := default store_empty (db world_seeded).

Definition enquiry_valid : Doc :=
  list_to_map [
    ("name", VStr "A");
    ("email", VStr "a@b.com");
    ("product_type", VStr "Other");
    ("message", VStr "hi")].

Definition enquiry_three : Doc := <["quantity" := VInt 3]> enquiry_valid.

(** * Properties *)

(** ** The document mapper *)

Section MapperFacts.
Context `{Runtime}.

Lemma field_str_default (doc : Doc) (key dflt : string) :
  match field_str key (dict_get_default doc key (VStr dflt)) with
  | inr s => doc !! key = None → s = dflt
  | inl e => loc e = key ∧ is_Some (doc !! key)
  end.
Proof.
  unfold field_str, dict_get_default.
  destruct (doc !! key) as [v|] eqn:Hk; simpl.
  - destruct (coerce_str v); [discriminate | eauto].
  - rewrite coerce_str_str. reflexivity.
Qed.

Lemma field_opt_str_get (doc : Doc) (key : string) :
  match field_opt_str key (dict_get doc key) with
  | inr o => doc !! key = None → o = None
  | inl e => loc e = key ∧ is_Some (doc !! key)
  end.
Proof.
  unfold field_opt_str, dict_get.
  destruct (doc !! key) as [v|] eqn:Hk; simpl; [|reflexivity].
  destruct v; try discriminate;
    match goal with |- context [coerce_str ?v] => destruct (coerce_str v) end;
    simpl; eauto; discriminate.
Qed.

Lemma field_opt_float_get (doc : Doc) (key : string) :
  match field_opt_float key (dict_get doc key) with
  | inr o => doc !! key = None → o = None
  | inl e => loc e = key ∧ is_Some (doc !! key)
  end.
Proof.
  unfold field_opt_float, dict_get.
  destruct (doc !! key) as [v|] eqn:Hk; simpl; [|reflexivity].
  destruct v; try discriminate;
    match goal with |- context [coerce_float ?v] => destruct (coerce_float v) end;
    simpl; eauto; discriminate.
Qed.

(** What [ProductOut(...)] returns, by the outcome of its five checked
    fields. *)
Lemma ProductOut_new_cases id title description price category image featured :
  match ProductOut_new id title description price category image featured with
  | inr out =>
      field_str "title" title = inr (po_title out) ∧
      field_opt_str "description" description = inr (po_description out) ∧
      field_opt_float "price" price = inr (po_price out) ∧
      field_str "category" category = inr (po_category out) ∧
      field_opt_str "image" image = inr (po_image out) ∧
      po_id out = id ∧ po_featured out = featured
  | inl errors =>
      errors ≠ [] ∧
      errors = (errs (field_str "title" title) ++
                errs (field_opt_str "description" description) ++
                errs (field_opt_float "price" price) ++
                errs (field_str "category" category) ++
                errs (field_opt_str "image" image))%list
  end.
Proof.
  unfold ProductOut_new.
  destruct (field_str "title" title), (field_opt_str "description" description),
    (field_opt_float "price" price), (field_str "category" category),
    (field_opt_str "image" image); simpl; repeat split; discriminate.
Qed.

Lemma elem_of_errs {A} (r : field_error + A) (e : field_error) :
  e ∈ errs r → r = inl e.
Proof.
  destruct r; simpl; intros He.
  - apply list_elem_of_singleton in He. congruence.
  - by apply not_elem_of_nil in He.
Qed.


(** The mapper seen through [ProductOut_new_cases]. *)
Lemma to_product_out_raw (doc : Doc) :
  match _to_product_out doc with
  | inr out => po_id out = py_str (dict_get doc "_id")
  | inl errors =>
      errors ≠ [] ∧
      ∀ e, e ∈ errors →
        loc e = "title" ∨ loc e = "description" ∨ loc e = "price" ∨
        loc e = "category" ∨ loc e = "image"
  end.
Proof.
  unfold _to_product_out.
  pose proof (ProductOut_new_cases
    (py_str (dict_get doc "_id"))
    (dict_get_default doc "title" (VStr "Untitled"))
    (dict_get doc "description") (dict_get doc "price")
    (dict_get_default doc "category" (VStr "General"))
    (dict_get doc "image")
    (py_bool (dict_get_default doc "featured" (VBool false)))) as Hnew.
  pose proof (field_str_default doc "title" "Untitled") as Ht.
  pose proof (field_str_default doc "category" "General") as Hc.
  pose proof (field_opt_str_get doc "description") as Hd.
  pose proof (field_opt_float_get doc "price") as Hp.
  pose proof (field_opt_str_get doc "image") as Hi.
  destruct (ProductOut_new _ _ _ _ _ _ _) as [errors|out].
  - destruct Hnew as [Hne ->]. split; [done|].
    intros e He. rewrite !elem_of_app in He.
    destruct He as [He|[He|[He|[He|He]]]]; apply elem_of_errs in He;
      [rewrite He in Ht | rewrite He in Hd | rewrite He in Hp
      | rewrite He in Hc | rewrite He in Hi]; tauto.
  - tauto.
Qed.

(** The mapper on a document whose fields read as values of their types. *)
Lemma to_product_out_eval (doc : Doc) (title : string)
  (description : option string) (price : option float) (category : string)
  (image : option string) (featured : bool) :
  dict_get_default doc "title" (VStr "Untitled") = VStr title →
  dict_get doc "description" = from_option VStr VNone description →
  dict_get doc "price" = from_option VFloat VNone price →
  dict_get_default doc "category" (VStr "General") = VStr category →
  dict_get doc "image" = from_option VStr VNone image →
  py_bool (dict_get_default doc "featured" (VBool false)) = featured →
  _to_product_out doc =
    inr (mkProductOut (py_str (dict_get doc "_id")) title description
           price category image featured).
Proof.
  intros Ht Hd Hp Hc Hi Hf.
  unfold _to_product_out, ProductOut_new.
  rewrite Ht, Hd, Hp, Hc, Hi, Hf.
  unfold field_str. rewrite !coerce_str_str.
  assert (Hopt : ∀ key o,
    field_opt_str key (from_option VStr VNone o) = inr o).
  { intros key [s|]; simpl; [|done]. by rewrite coerce_str_str. }
  assert (Hflt : ∀ key o,
    field_opt_float key (from_option VFloat VNone o) = inr o).
  { intros key [x|]; simpl; [|done]. by rewrite coerce_float_float. }
  by rewrite !Hopt, Hflt.
Qed.

(** Whatever the document, the mapper either yields a record in which a
    missing [title] reads ["Untitled"], a missing [category] reads
    ["General"] and a missing [featured] reads [False], or it fails on fields
    that the document does contain: a missing key is never among the
    errors. *)
Lemma to_product_out_absent_never_fails (doc : Doc) :
  match _to_product_out doc with
  | inr out =>
      (doc !! "title" = None → po_title out = "Untitled") ∧
      (doc !! "category" = None → po_category out = "General") ∧
      (doc !! "featured" = None → po_featured out = false)
  | inl errors =>
      errors ≠ [] ∧ ∀ e, e ∈ errors → is_Some (doc !! loc e)
  end.
Proof.
  unfold _to_product_out.
  pose proof (ProductOut_new_cases
    (py_str (dict_get doc "_id"))
    (dict_get_default doc "title" (VStr "Untitled"))
    (dict_get doc "description") (dict_get doc "price")
    (dict_get_default doc "category" (VStr "General"))
    (dict_get doc "image")
    (py_bool (dict_get_default doc "featured" (VBool false)))) as Hnew.
  pose proof (field_str_default doc "title" "Untitled") as Ht.
  pose proof (field_str_default doc "category" "General") as Hc.
  pose proof (field_opt_str_get doc "description") as Hd.
  pose proof (field_opt_float_get doc "price") as Hp.
  pose proof (field_opt_str_get doc "image") as Hi.
  destruct (ProductOut_new _ _ _ _ _ _ _) as [errors|out].
  - destruct Hnew as [Hne ->]. split; [done|].
    intros e He. rewrite !elem_of_app in He.
    destruct He as [He|[He|[He|[He|He]]]]; apply elem_of_errs in He;
      [rewrite He in Ht; destruct Ht as [-> Hk]
      | rewrite He in Hd; destruct Hd as [-> Hk]
      | rewrite He in Hp; destruct Hp as [-> Hk]
      | rewrite He in Hc; destruct Hc as [-> Hk]
      | rewrite He in Hi; destruct Hi as [-> Hk]]; exact Hk.
  - destruct Hnew as (Et & _ & _ & Ec & _ & _ & Ef).
    rewrite Et in Ht. rewrite Ec in Hc.
    split; [done|]. split; [done|].
    intros Hf. rewrite Ef. unfold dict_get_default. by rewrite Hf.
Qed.

(** the record of a stored product, field by field *)
Lemma to_product_out_stored (doc : Doc) :
  stored_product doc = true →
  _to_product_out doc =
    inr (mkProductOut
           (py_str (dict_get doc "_id"))
           match doc !! "title" with Some (VStr s) => s | _ => "Untitled" end
           match doc !! "description" with Some (VStr s) => Some s | _ => None end
           match doc !! "price" with Some (VFloat x) => Some x | _ => None end
           match doc !! "category" with Some (VStr s) => s | _ => "General" end
           match doc !! "image" with Some (VStr s) => Some s | _ => None end
           match doc !! "featured" with Some v => py_bool v | None => false end).
Proof.
  unfold stored_product, ok_at. rewrite !andb_true_iff.
  intros ((((Ht & Hd) & Hp) & Hc) & Hi).
  apply to_product_out_eval; unfold dict_get, dict_get_default.
  - by destruct (doc !! "title") as [[]|].
  - by destruct (doc !! "description") as [[]|].
  - by destruct (doc !! "price") as [[]|].
  - by destruct (doc !! "category") as [[]|].
  - by destruct (doc !! "image") as [[]|].
  - by destruct (doc !! "featured").
Qed.

(** The mapper succeeds exactly on the documents that [ProductOut]
    accepts, and a stored product is one. *)
Lemma to_product_out_succeeds_iff (doc : Doc) :
  ((∃ out, _to_product_out doc = inr out) ↔ accepted doc) ∧
  (stored_product doc = true → accepted doc).
Proof.
  assert (Hstr : ∀ key dflt,
    (∃ s, field_str key (dict_get_default doc key (VStr dflt)) = inr s) ↔
    (∀ v, doc !! key = Some v → is_Some (coerce_str v))).
  { intros key dflt. unfold field_str, dict_get_default.
    destruct (doc !! key) as [v|]; simpl.
    - destruct (coerce_str v) as [s|] eqn:Hv.
      + split; [intros _ ? [= <-]; by rewrite Hv|eauto].
      + split; [by intros [? ?]|].
        intros Hall. destruct (Hall v eq_refl) as [? ?]. congruence.
    - rewrite coerce_str_str. split; [done|eauto]. }
  assert (Hopt : ∀ key,
    (∃ o, field_opt_str key (dict_get doc key) = inr o) ↔
    (∀ v, doc !! key = Some v → v = VNone ∨ is_Some (coerce_str v))).
  { intros key. unfold field_opt_str, dict_get.
    destruct (doc !! key) as [v|]; simpl; [|split; [done|eauto]].
    destruct (coerce_str v) as [s|] eqn:Hv.
    - split; [intros _ ? [= <-]; right; by rewrite Hv|].
      intros _. destruct v; eauto.
    - split.
      + intros [o Ho] ? [= <-]. destruct v; try discriminate. by left.
      + intros Hall. destruct (Hall v eq_refl) as [->|[? ?]]; [eauto|].
        congruence. }
  assert (Hflt : ∀ key,
    (∃ o, field_opt_float key (dict_get doc key) = inr o) ↔
    (∀ v, doc !! key = Some v → v = VNone ∨ is_Some (coerce_float v))).
  { intros key. unfold field_opt_float, dict_get.
    destruct (doc !! key) as [v|]; simpl; [|split; [done|eauto]].
    destruct (coerce_float v) as [s|] eqn:Hv.
    - split; [intros _ ? [= <-]; right; by rewrite Hv|].
      intros _. destruct v; eauto.
    - split.
      + intros [o Ho] ? [= <-]. destruct v; try discriminate. by left.
      + intros Hall. destruct (Hall v eq_refl) as [->|[? ?]]; [eauto|].
        congruence. }
  split.
  - unfold accepted.
    rewrite <- (Hstr "title" "Untitled"), <- (Hstr "category" "General"),
      <- (Hopt "description"), <- (Hopt "image"), <- (Hflt "price").
    unfold _to_product_out, ProductOut_new.
    destruct (field_str "title" _), (field_opt_str "description" _),
      (field_opt_float "price" _), (field_str "category" _),
      (field_opt_str "image" _);
      (split; [intros [? ?]; try discriminate; eauto 10
              | intros ([? ?] & [? ?] & [? ?] & [? ?] & [? ?]);
                try discriminate; eauto]).
  - unfold stored_product, ok_at, accepted. rewrite !andb_true_iff.
    intros ((((Ht & Hd) & Hp) & Hc) & Hi).
    repeat split; intros v Hv; rewrite Hv in *; simpl in *;
      destruct v; try discriminate; rewrite ?coerce_str_str,
        ?coerce_float_float; eauto.
Qed.


(** C8. A document that holds all six output fields with values of their
    written types is mapped to exactly those values. *)
Theorem to_product_out_present (doc : Doc) (title : string)
  (description : option string) (price : float) (category : string)
  (image : option string) (featured : bool) :
  doc !! "title" = Some (VStr title) →
  doc !! "description" = Some (from_option VStr VNone description) →
  doc !! "price" = Some (VFloat price) →
  doc !! "category" = Some (VStr category) →
  doc !! "image" = Some (from_option VStr VNone image) →
  doc !! "featured" = Some (VBool featured) →
  _to_product_out doc =
    inr (mkProductOut (py_str (dict_get doc "_id")) title description
           (Some price) category image featured).
Proof.
  intros Ht Hd Hp Hc Hi Hf.
  apply (to_product_out_eval doc title description (Some price));
    unfold dict_get, dict_get_default;
    rewrite ?Ht, ?Hd, ?Hp, ?Hc, ?Hi, ?Hf; reflexivity.
Qed.

(** the identifier is no argument of the checks of [ProductOut] *)
Lemma ProductOut_new_id (id id' : string) (title description price category
  image : value) (featured : bool) :
  match ProductOut_new id title description price category image featured with
  | inr out =>
      po_id out = id ∧
      ProductOut_new id' title description price category image featured =
        inr (mkProductOut id' (po_title out) (po_description out)
               (po_price out) (po_category out) (po_image out)
               (po_featured out))
  | inl errors =>
      ProductOut_new id' title description price category image featured =
        inl errors
  end.
Proof.
  unfold ProductOut_new.
  by destruct (field_str "title" title),
    (field_opt_str "description" description),
    (field_opt_float "price" price), (field_str "category" category),
    (field_opt_str "image" image).
Qed.

(** the mapper on a document with the identity [v], and on the same document
    without identity *)
Lemma to_product_out_identity (doc : Doc) (v : value) :
  match _to_product_out (<["_id" := v]> doc) with
  | inr out =>
      po_id out = py_str v ∧
      _to_product_out (delete "_id" doc) =
        inr (mkProductOut "None" (po_title out) (po_description out)
               (po_price out) (po_category out) (po_image out)
               (po_featured out))
  | inl errors => _to_product_out (delete "_id" doc) = inl errors
  end.
Proof.
  unfold _to_product_out, dict_get, dict_get_default.
  rewrite lookup_insert_eq, !lookup_insert_ne by done.
  rewrite lookup_delete_eq, !lookup_delete_ne by done. simpl.
  rewrite py_str_None. apply ProductOut_new_id.
Qed.

(** C9. The identity never decides whether the mapper succeeds. With any
    value at [_id] the mapper has the errors that it has without [_id], and
    succeeds when it succeeds without, on the same record but for its [id]:
    the text of the value, or ["None"] without [_id]. It succeeds on every
    stored product. No error is located at [id]. *)
Theorem to_product_out_id (doc : Doc) (v : value) :
  (∀ out, _to_product_out doc = inr out →
     po_id out = py_str (dict_get doc "_id")) ∧
  (∀ e, e ∈ validation_errors (_to_product_out doc) → loc e ≠ "id") ∧
  (doc !! "_id" = None → py_str (dict_get doc "_id") = "None") ∧
  (∀ out, _to_product_out doc = inr out →
     _to_product_out (delete "_id" doc) =
       inr (mkProductOut "None" (po_title out) (po_description out)
              (po_price out) (po_category out) (po_image out)
              (po_featured out))) ∧
  _to_product_out ∅ =
    inr (mkProductOut "None" "Untitled" None None "General" None false) ∧
  validation_errors (_to_product_out (<["_id" := v]> doc)) =
    validation_errors (_to_product_out (delete "_id" doc)) ∧
  (∀ out, _to_product_out (delete "_id" doc) = inr out →
     po_id out = "None" ∧
     _to_product_out (<["_id" := v]> doc) =
       inr (mkProductOut (py_str v) (po_title out) (po_description out)
              (po_price out) (po_category out) (po_image out)
              (po_featured out))) ∧
  (∀ out, _to_product_out (<["_id" := v]> doc) = inr out →
     po_id out = py_str v ∧
     _to_product_out (delete "_id" doc) =
       inr (mkProductOut "None" (po_title out) (po_description out)
              (po_price out) (po_category out) (po_image out)
              (po_featured out))) ∧
  (stored_product doc = true →
   ∃ out, _to_product_out (<["_id" := v]> doc) = inr out ∧
          po_id out = py_str v) ∧
  (stored_product doc = true →
   ∃ out, _to_product_out doc = inr out ∧
          po_id out = py_str (dict_get doc "_id")).
Proof.
  pose proof (to_product_out_raw doc) as Hdoc.
  pose proof (to_product_out_identity doc v) as Hid.
  split; [|split; [|split; [|split; [|split]]]].
  - intros out Hout. by rewrite Hout in Hdoc.
  - intros e He. destruct (_to_product_out doc) as [errors|out]; simpl in He.
    + destruct Hdoc as [_ Hloc]. apply Hloc in He.
      intros Hloc'. rewrite Hloc' in He.
      destruct He as [He|[He|[He|[He|He]]]]; discriminate.
    + by apply not_elem_of_nil in He.
  - intros Hnone. unfold dict_get. rewrite Hnone. apply py_str_None.
  - intros out Hout. clear Hdoc Hid.
    unfold _to_product_out, dict_get, dict_get_default in *.
    rewrite lookup_delete_eq, !lookup_delete_ne by done. simpl.
    rewrite py_str_None.
    unfold ProductOut_new in *.
    destruct (field_str "title" _), (field_opt_str "description" _),
      (field_opt_float "price" _), (field_str "category" _),
      (field_opt_str "image" _); try discriminate.
    by injection Hout as <-.
  - unfold _to_product_out, ProductOut_new, dict_get, dict_get_default.
    rewrite !lookup_empty. simpl. unfold field_str.
    rewrite !coerce_str_str, py_str_None. reflexivity.
  - split; [|split; [|split; [|split]]].
    + destruct (_to_product_out (<["_id" := v]> doc)) as [errors|out].
      * by rewrite Hid.
      * destruct Hid as [_ ->]. reflexivity.
    + intros out Hout.
      destruct (_to_product_out (<["_id" := v]> doc)) as [errors|out'].
      * congruence.
      * destruct Hid as [Hv Hdel]. rewrite Hdel in Hout.
        injection Hout as <-. simpl. split; [done|].
        destruct out'. simpl in *. by subst.
    + intros out Hout. by rewrite Hout in Hid.
    + intros Hstored. rewrite to_product_out_stored.
      * eexists. split; [reflexivity|]. simpl. unfold dict_get.
        by rewrite lookup_insert_eq.
      * revert Hstored. unfold stored_product, ok_at.
        by rewrite !lookup_insert_ne by done.
    + intros Hstored. rewrite to_product_out_stored by done.
      eexists. split; reflexivity.
Qed.

End MapperFacts.

(** ** Listing products *)

Section ListingFacts.
Context `{Runtime}.

Lemma call_to_product_out_ok (doc : Doc) (out : ProductOut) (w : World) :
  _to_product_out doc = inr out → call_to_product_out doc w = (inr out, w).
Proof. intros Hout. unfold call_to_product_out. by rewrite Hout. Qed.

(** C3, as amended. While the store is not configured, listing products
    answers exactly one record, titled ["Sample Product"] and featured,
    whatever the filters, and raises nothing. *)
Theorem list_products_unconfigured (featured : option bool)
  (category : option string) (w : World) :
  db w = None →
  ∃ out, list_products featured category w = (inr [out], w) ∧
         po_title out = "Sample Product" ∧ po_featured out = true.
Proof.
  intros Hdb. eexists. split.
  - unfold list_products, mbind, M_bind, get_db. rewrite Hdb.
    unfold fallback. cbn [mapM]. unfold mbind, M_bind.
    erewrite call_to_product_out_ok; [reflexivity|].
    apply (to_product_out_eval _ "Sample Product"
             (Some "Configure DATABASE_URL and DATABASE_NAME to load real items.")
             None "General" None true); reflexivity.
  - split; reflexivity.
Qed.

(** An empty [category] is the absent [category]: the query has no
    [category] key and the listing is the same; [featured], when given, is
    always in the query, also when it is [False]. *)
Lemma products_query_filters (featured : option bool) :
  products_query featured (Some "") = products_query featured None ∧
  products_query featured (Some "") !! "category" = None ∧
  list_products featured (Some "") = list_products featured None ∧
  (∀ b category,
     products_query (Some b) category !! "featured" = Some (VBool b)) ∧
  (∀ category c,
     products_query featured category !! "category" = Some c →
     ∃ s, category = Some s ∧ s ≠ "" ∧ c = VStr s).
Proof.
  split; [reflexivity|]. split.
  { destruct featured; reflexivity. }
  split; [reflexivity|]. split.
  - intros b [c|]; unfold products_query; simpl.
    + destruct (negb _); by simplify_map_eq.
    + by simplify_map_eq.
  - intros [s|] c; unfold products_query; simpl.
    + destruct (String.eqb_spec s "") as [->|Hs]; simpl.
      * destruct featured; intros; simplify_map_eq.
      * destruct featured; intros; simplify_map_eq; eauto.
    + destruct featured; intros; simplify_map_eq.
Qed.

End ListingFacts.

(** ** The seeder *)

Section SeederFacts.
Context `{Runtime}.

Lemma stamp_run (p : Doc) (w : World) :
  stamp p w =
    (inr (<["updated_at" := VDatetime (clock w (S (reads w)))]>
            (<["created_at" := VDatetime (clock w (reads w))]> p)),
     mkWorld (db w) (clock w) (S (S (reads w)))).
Proof. reflexivity. Qed.

Lemma mapM_stamp_run (docs : list Doc) (w : World) :
  mapM stamp docs w =
    (inr (stamped (clock w) (reads w) docs),
     mkWorld (db w) (clock w) (reads w + 2 * length docs)).
Proof.
  revert w. induction docs as [|p docs IH]; intros w.
  - destruct w as [d c r]. simpl. unfold mret, M_ret. simpl.
    do 2 f_equal. lia.
  - cbn [mapM]. unfold mbind, M_bind. rewrite stamp_run, IH. simpl.
    unfold mret, M_ret. do 2 f_equal. lia.
Qed.

(** the seeder never writes to a collection that holds a document *)
Lemma seed_products_body_nonempty (w : World) (d : Database) :
  db w = Some d → collection d "product" ≠ [] →
  ∃ r d', seed_products_body w = (r, mkWorld (Some d') (clock w) (reads w)) ∧
          collections d' = collections d.
Proof.
  intros Hdb Hne. destruct w as [dbw c r]. simpl in Hdb. subst dbw.
  unfold seed_products_body, mbind, M_bind, get_db, on_db, count_documents.
  simpl. destruct (fault d (calls d)); simpl.
  - eauto.
  - destruct (collection d "product") as [|p l]; [done|].
    simpl. eauto.
Qed.

(** C5. The seeder returns normally from every world; without a store it
    changes nothing, and a product collection that holds a document is left
    as it is, like every other collection. *)
Theorem seed_products_never_raises (w : World) :
  (seed_products_if_needed w).1 = inr tt ∧
  (db w = None → (seed_products_if_needed w).2 = w) ∧
  (∀ d, db w = Some d → collection d "product" ≠ [] →
     ∃ d', db (seed_products_if_needed w).2 = Some d' ∧
           collections d' = collections d ∧
           length (collection d' "product") = length (collection d "product")).
Proof.
  split; [|split].
  - unfold seed_products_if_needed, try_except.
    destruct (seed_products_body w) as [[e|[]] w']; reflexivity.
  - intros Hdb. destruct w as [dbw c r]. simpl in Hdb. subst dbw.
    reflexivity.
  - intros d Hdb Hne.
    destruct (seed_products_body_nonempty w d Hdb Hne) as (r & d' & Hrun & Hd').
    exists d'. unfold seed_products_if_needed, try_except. rewrite Hrun.
    unfold collection. rewrite Hd'.
    destruct r as [e|[]]; simpl; auto.
Qed.

(** documents without [_id] are given consecutive fresh ones *)
Lemma assign_ids_from (docs acc : list Doc) (fresh : nat → N) (n : nat) :
  Forall (λ doc : Doc, doc !! "_id" = None) docs →
  fold_left (λ a doc, assign_id a fresh doc) docs (acc, n) =
    ((acc ++ imap (λ i doc, <["_id" := VObjectId (fresh (n + i)%nat)]> doc)
               docs)%list,
     (n + length docs)%nat).
Proof.
  revert acc n. induction docs as [|p docs IH]; intros acc n Hdocs.
  - simpl. by rewrite app_nil_r, Nat.add_0_r.
  - inversion Hdocs as [|? ? Hp Hrest]; subst.
    assert (Hstep : assign_id (acc, n) fresh p =
      ((acc ++ [<["_id" := VObjectId (fresh n)]> p])%list, S n)).
    { unfold assign_id. simpl. by rewrite Hp. }
    cbn [fold_left]. rewrite Hstep, IH by done.
    cbn [imap length]. rewrite <- app_assoc, Nat.add_0_r. simpl.
    f_equal; [|lia]. do 2 f_equal.
    apply imap_ext. intros i doc _. simpl. do 3 f_equal. lia.
Qed.

Lemma assign_ids_fresh (docs : list Doc) (fresh : nat → N) (n : nat) :
  Forall (λ doc : Doc, doc !! "_id" = None) docs →
  assign_ids docs fresh n =
    (imap (λ i doc, <["_id" := VObjectId (fresh (n + i)%nat)]> doc) docs,
     (n + length docs)%nat).
Proof. intros Hdocs. unfold assign_ids. by rewrite assign_ids_from. Qed.

Lemma stamped_no_id (clk : nat → Z) (docs : list Doc) (r : nat) :
  Forall (λ doc : Doc, doc !! "_id" = None) docs →
  Forall (λ doc : Doc, doc !! "_id" = None) (stamped clk r docs).
Proof.
  intros Hdocs. revert r. induction Hdocs as [|p docs Hp _ IH]; intros r.
  - constructor.
  - simpl. constructor; [|apply IH].
    by rewrite !lookup_insert_ne.
Qed.

Lemma stamped_length (clk : nat → Z) (docs : list Doc) (r : nat) :
  length (stamped clk r docs) = length docs.
Proof. revert r. induction docs; intros r; simpl; auto. Qed.

(** the stamps of the [i]-th document *)
Lemma stamped_lookup (clk : nat → Z) (docs : list Doc) (r i : nat) (doc : Doc) :
  stamped clk r docs !! i = Some doc →
  ∃ p, docs !! i = Some p ∧
       doc = <["updated_at" := VDatetime (clk (r + 2 * i + 1)%nat)]>
               (<["created_at" := VDatetime (clk (r + 2 * i)%nat)]> p).
Proof.
  revert r i. induction docs as [|p docs IH]; intros r i; [done|].
  destruct i as [|i]; simpl.
  - intros [= <-]. exists p. split; [done|].
    by rewrite Nat.add_0_r, Nat.add_1_r.
  - intros Hi. destruct (IH _ _ Hi) as (q & Hq & ->).
    exists q. split; [done|].
    replace (r + S (i + S (i + 0)) + 1)%nat with (S (S r) + 2 * i + 1)%nat by lia.
    replace (r + S (i + S (i + 0)))%nat with (S (S r) + 2 * i)%nat by lia.
    done.
Qed.

Lemma demo_products_no_id :
  Forall (λ doc : Doc, doc !! "_id" = None) demo_products.
Proof. repeat constructor. Qed.

(** the run of the seeder on an empty product collection, when the count
    and the insert both succeed *)
Lemma seed_products_body_empty (w : World) (d : Database) :
  db w = Some d →
  collection d "product" = [] →
  fault d (calls d) = None →
  fault d (S (calls d)) = None →
  seed_products_body w =
    (inr tt,
     mkWorld
       (Some (mkDatabase
          (<["product" :=
              imap (λ i doc,
                      <["_id" := VObjectId (fresh_oid d (assigned d + i)%nat)]> doc)
                (stamped (clock w) (reads w) demo_products)]> (collections d))
          (fault d) (S (S (calls d))) (fresh_oid d) (assigned d + 4)%nat))
       (clock w) (reads w + 8)%nat).
Proof.
  intros Hdb Hcoll Hcount Hinsert.
  destruct w as [dbw clk r]. simpl in Hdb. subst dbw.
  unfold seed_products_body, mbind, M_bind, get_db. cbn [db].
  unfold on_db at 1. cbn [db]. unfold count_documents.
  rewrite Hcount, Hcoll. cbn [length Z.of_nat Z.eqb clock reads].
  change (Z.of_nat 0 =? 0) with true. cbv beta iota.
  rewrite mapM_stamp_run. cbn [db clock reads].
  unfold on_db, insert_many. cbn [db clock reads].
  rewrite assign_ids_fresh by apply stamped_no_id, demo_products_no_id.
  unfold called at 1 2. cbn [fault calls]. rewrite Hinsert.
  rewrite firstn_all, stamped_length.
  change (collection (called d) "product") with (collection d "product").
  rewrite Hcoll. reflexivity.
Qed.

(** C4, as amended. On a configured store whose product collection is
    empty, the count and the insert succeeding, the seeder inserts exactly
    the four demo products, in order; each carries two successive readings
    of the clock, the first as [created_at] and the second as
    [updated_at]. *)
Theorem seed_products_empty_store (w : World) (d : Database) :
  db w = Some d →
  collection d "product" = [] →
  fault d (calls d) = None →
  fault d (S (calls d)) = None →
  ∃ d',
    seed_products_if_needed w =
      (inr tt, mkWorld (Some d') (clock w) (reads w + 8)%nat) ∧
    (λ doc : Doc, doc !! "title") <$> collection d' "product" =
      [Some (VStr "Precision Laser‑Cut Signage");
       Some (VStr "3D Trophy – Metallic Finish");
       Some (VStr "3D‑Style Product Mockup");
       Some (VStr "Custom Keychains")] ∧
    ∀ i doc, collection d' "product" !! i = Some doc →
      doc !! "created_at" =
        Some (VDatetime (clock w (reads w + 2 * i)%nat)) ∧
      doc !! "updated_at" =
        Some (VDatetime (clock w (reads w + 2 * i + 1)%nat)).
Proof.
  intros Hdb Hcoll Hcount Hinsert.
  eexists. split; [|split].
  - unfold seed_products_if_needed, try_except.
    rewrite (seed_products_body_empty w d) by done. reflexivity.
  - unfold collection. cbn [collections]. rewrite lookup_insert_eq.
    reflexivity.
  - unfold collection. cbn [collections]. rewrite lookup_insert_eq.
    cbn [default]. intros i doc Hi. unfold id in Hi.
    rewrite list_lookup_imap in Hi.
    destruct (stamped (clock w) (reads w) demo_products !! i) as [q|] eqn:Hq;
      [|done].
    simpl in Hi. injection Hi as <-.
    apply stamped_lookup in Hq as (p & _ & ->).
    rewrite lookup_insert_ne, lookup_insert_ne, lookup_insert_eq by done.
    rewrite lookup_insert_ne, lookup_insert_eq by done. done.
Qed.

End SeederFacts.

(** ** Enquiries *)

Section EnquiryFacts.
Context `{Runtime}.

Lemma field_str_located : located field_str.
Proof.
  intros key v e. unfold field_str.
  destruct (coerce_str v); [discriminate|]. by intros [= <-].
Qed.

Lemma field_opt_str_located : located field_opt_str.
Proof.
  intros key v e. unfold field_opt_str.
  destruct v; try discriminate;
    match goal with |- context [coerce_str ?v] => destruct (coerce_str v) end;
    try discriminate; by intros [= <-].
Qed.

Lemma field_email_located : located field_email.
Proof.
  intros key v e. unfold field_email.
  destruct (coerce_str v) as [s|]; [|by intros [= <-]].
  destruct (validate_email s); [discriminate|]. by intros [= <-].
Qed.

Lemma field_opt_int_ge_located (bound : Z) : located (field_opt_int_ge bound).
Proof.
  intros key v e. unfold field_opt_int_ge.
  destruct v; try discriminate;
    match goal with |- context [coerce_int ?v] =>
      destruct (coerce_int v) as [q|] end;
    try (by intros [= <-]); destruct (bound <=? q); try discriminate;
    by intros [= <-].
Qed.

Lemma field_literal_located (expected : list string) :
  located (field_literal expected).
Proof.
  intros key v e. unfold field_literal.
  destruct v; try (by intros [= <-]).
  case_bool_decide; [discriminate|]. by intros [= <-].
Qed.

Lemma required_located {A} (field : string → value → field_error + A)
  (raw : Doc) (key : string) (e : field_error) :
  located field → e ∈ errs (required raw key field) → loc e = key.
Proof.
  intros Hfield He. apply elem_of_errs in He. unfold required in He.
  destruct (raw !! key) as [v|]; [by eapply Hfield|]. by injection He as <-.
Qed.

Lemma optional_located {A} (field : string → value → field_error + option A)
  (raw : Doc) (key : string) (e : field_error) :
  located field → e ∈ errs (optional raw key field) → loc e = key.
Proof.
  intros Hfield He. apply elem_of_errs in He. unfold optional in He.
  destruct (raw !! key) as [v|]; [by eapply Hfield|]. discriminate.
Qed.

(** the errors of an enquiry are those of its nine fields, in order *)
Lemma validate_enquiry_errors
  (field_product_type : string → value → field_error + string) (raw : Doc) :
  validation_errors (validate_enquiry field_product_type raw) =
    (errs (required raw "name" field_str) ++
     errs (required raw "email" field_email) ++
     errs (optional raw "phone" field_opt_str) ++
     errs (optional raw "company" field_opt_str) ++
     errs (required raw "product_type" field_product_type) ++
     errs (optional raw "quantity" (field_opt_int_ge 1)) ++
     errs (optional raw "budget_range" field_opt_str) ++
     errs (required raw "message" field_str) ++
     errs (optional raw "reference_url" field_opt_str))%list.
Proof.
  unfold validate_enquiry.
  destruct (required raw "name" field_str),
    (required raw "email" field_email),
    (optional raw "phone" field_opt_str),
    (optional raw "company" field_opt_str),
    (required raw "product_type" field_product_type),
    (optional raw "quantity" (field_opt_int_ge 1)),
    (optional raw "budget_range" field_opt_str),
    (required raw "message" field_str),
    (optional raw "reference_url" field_opt_str); reflexivity.
Qed.

(** a failed validation has an error to report *)
Lemma validate_enquiry_inl
  (field_product_type : string → value → field_error + string) (raw : Doc)
  (errors : ValidationError) :
  validate_enquiry field_product_type raw = inl errors → errors ≠ [].
Proof.
  unfold validate_enquiry.
  destruct (required raw "name" field_str),
    (required raw "email" field_email),
    (optional raw "phone" field_opt_str),
    (optional raw "company" field_opt_str),
    (required raw "product_type" field_product_type),
    (optional raw "quantity" (field_opt_int_ge 1)),
    (optional raw "budget_range" field_opt_str),
    (required raw "message" field_str),
    (optional raw "reference_url" field_opt_str);
    intros [= <-]; discriminate.
Qed.

Lemma elem_of_validation_errors {A} (r : ValidationError + A)
  (e : field_error) :
  e ∈ validation_errors r → ∃ errors, r = inl errors ∧ e ∈ errors.
Proof.
  destruct r as [errors|a]; simpl; [eauto|].
  intros He. by apply not_elem_of_nil in He.
Qed.

(** every error of an enquiry is at one of the nine fields; an error at
    [key] is an error of the field [key] *)
Lemma validate_enquiry_located
  (field_product_type : string → value → field_error + string) (raw : Doc)
  (e : field_error) :
  located field_product_type →
  e ∈ validation_errors (validate_enquiry field_product_type raw) →
  loc e ∈ enquiry_fields ∧
  (loc e = "quantity" →
     e ∈ errs (optional raw "quantity" (field_opt_int_ge 1))) ∧
  (loc e = "product_type" →
     e ∈ errs (required raw "product_type" field_product_type)).
Proof.
  intros Hpt. rewrite validate_enquiry_errors, !elem_of_app.
  intros [He|[He|[He|[He|[He|[He|[He|[He|He]]]]]]]]; pose proof He as He';
    [ apply (required_located _ _ _ _ field_str_located) in He
    | apply (required_located _ _ _ _ field_email_located) in He
    | apply (optional_located _ _ _ _ field_opt_str_located) in He
    | apply (optional_located _ _ _ _ field_opt_str_located) in He
    | apply (required_located _ _ _ _ Hpt) in He
    | apply (optional_located _ _ _ _ (field_opt_int_ge_located 1)) in He
    | apply (optional_located _ _ _ _ field_opt_str_located) in He
    | apply (required_located _ _ _ _ field_str_located) in He
    | apply (optional_located _ _ _ _ field_opt_str_located) in He ];
    rewrite He; (split; [unfold enquiry_fields; set_solver|]);
    split; intros Hk; first [done | discriminate Hk].
Qed.


(** [main.EnquiryIn] takes any string as [product_type]; [schemas.Enquiry]
    takes the four listed ones only. *)
Lemma product_type_checks (raw : Doc) (p : string) :
  raw !! "product_type" = Some (VStr p) →
  (∀ e, e ∈ validation_errors (EnquiryIn_validate raw) →
        loc e ≠ "product_type") ∧
  (p ∉ product_types →
   FieldError "product_type" (literal_error product_types)
     ∈ validation_errors (Enquiry_validate raw)).
Proof.
  intros Hp. split.
  - intros e He Hloc.
    apply (validate_enquiry_located _ _ _ field_str_located) in He
      as (_ & _ & Hpt).
    apply Hpt, elem_of_errs in Hloc. unfold required in Hloc.
    rewrite Hp in Hloc. unfold field_str in Hloc.
    by rewrite coerce_str_str in Hloc.
  - intros Hnot. unfold Enquiry_validate.
    rewrite validate_enquiry_errors, !elem_of_app.
    do 4 right. left. unfold required. rewrite Hp. simpl.
    rewrite bool_decide_eq_false_2 by done. simpl. set_solver.
Qed.

(** A body that fails the validation of the route is answered with the
    list of its errors, which is not empty and names a field of the enquiry
    in each entry; the handler is not run, whatever [create_document] does,
    and the world, store included, is as before. *)
Lemma invalid_enquiry_not_written
  (create_document : string → EnquiryIn → M string) (raw : Doc) (w : World)
  (errors : ValidationError) :
  EnquiryIn_validate raw = inl errors →
  post_enquiries create_document raw w = (UnprocessableEntity errors, w) ∧
  errors ≠ [] ∧
  ∀ e, e ∈ errors → loc e ∈ enquiry_fields.
Proof.
  intros Hraw. split; [|split].
  - unfold post_enquiries. by rewrite Hraw.
  - by eapply validate_enquiry_inl.
  - intros e He.
    apply (validate_enquiry_located field_str raw e field_str_located).
    fold EnquiryIn_validate. by rewrite Hraw.
Qed.

End EnquiryFacts.

(** ** The program at concrete inputs, run on [Sample.runtime] *)

Section Examples.
#[local] Existing Instance Sample.runtime.

(** C1. The body [{name: "A", email: "a@b.com", product_type: "Banana",
    message: "hi"}] passes the validation of the route, which is that of
    [main.EnquiryIn], while [schemas.Enquiry] rejects it with an error at
    [product_type] that lists the four allowed strings; the route answers
    [Created] and, with [create_document] as the specification describes it,
    the enquiry is in the store. *)
Theorem unlisted_product_type_accepted :
  EnquiryIn_validate enquiry_unlisted =
    inr (mkEnquiryIn "A" "a@b.com" None None "Banana" None None "hi" None) ∧
  Enquiry_validate enquiry_unlisted =
    inl [FieldError "product_type"
           (literal_error ["2D Laser-cut"; "3D Trophy"; "3D Mockup"; "Other"])] ∧
  (∀ (helper : string → EnquiryIn → M string) (w : World),
     post_enquiries helper enquiry_unlisted w =
       respond (create_enquiry helper
                  (mkEnquiryIn "A" "a@b.com" None None "Banana" None None
                     "hi" None) w)) ∧
  (post_enquiries create_document enquiry_unlisted world_empty_store).1 =
    Created (mkEnquiryOut "0" 0) ∧
  (λ doc : Doc, doc !! "product_type") <$>
    stored "enquiry"
      (post_enquiries create_document enquiry_unlisted world_empty_store).2 =
    [Some (VStr "Banana")].
Proof.
  split; [vm_compute; reflexivity|]. split; [vm_compute; reflexivity|].
  split; [|split; vm_compute; reflexivity].
  intros helper w. unfold post_enquiries.
  replace (EnquiryIn_validate enquiry_unlisted) with
    (inr (mkEnquiryIn "A" "a@b.com" None None "Banana" None None "hi" None)
       : ValidationError + EnquiryIn) by (vm_compute; reflexivity).
  reflexivity.
Qed.

(** [quantity] on the sample runtime: 0, -3, 2.5 and ["many"] are refused,
    1 and [None] are taken. *)
Lemma quantity_examples :
  validation_errors
    (EnquiryIn_validate (<["quantity" := VInt 0]> enquiry_unlisted)) =
    [FieldError "quantity" (greater_than_equal 1)] ∧
  validation_errors
    (EnquiryIn_validate (<["quantity" := VInt (-3)]> enquiry_unlisted)) =
    [FieldError "quantity" (greater_than_equal 1)] ∧
  validation_errors
    (EnquiryIn_validate (<["quantity" := VFloat 2.5]> enquiry_unlisted)) =
    [FieldError "quantity" int_type] ∧
  validation_errors
    (EnquiryIn_validate (<["quantity" := VStr "many"]> enquiry_unlisted)) =
    [FieldError "quantity" int_type] ∧
  quantity <$> (validation_result
    (EnquiryIn_validate (<["quantity" := VInt 1]> enquiry_unlisted))) =
    Some (Some 1) ∧
  quantity <$> (validation_result
    (EnquiryIn_validate (<["quantity" := VNone]> enquiry_unlisted))) =
    Some None.
Proof. repeat split; vm_compute; reflexivity. Qed.

(** When the insert of the seeder fails, the failure is swallowed and the
    collection stays empty. *)
Lemma seed_products_insert_fails :
  (seed_products_if_needed world_failing_insert).1 = inr tt ∧
  stored "product" (seed_products_if_needed world_failing_insert).2 = [].
Proof. split; vm_compute; reflexivity. Qed.

(** C3, counterexample. A configured store with an empty product collection
    answers the empty list, not the placeholder. *)
Lemma list_products_empty_collection :
  stored "product" world_empty_store = [] ∧
  (list_products None None world_empty_store).1 = inr [] ∧
  ¬ ∃ out, (list_products None None world_empty_store).1 = inr [out] ∧
           po_title out = "Sample Product" ∧ po_featured out = true.
Proof.
  split; [reflexivity|]. split; [vm_compute; reflexivity|].
  intros (out & Hout & _). vm_compute in Hout. discriminate.
Qed.

(** [list_products_unconfigured] on a world without store, with both
    filters given. *)
Lemma list_products_unconfigured_witness :
  db world_unconfigured = None ∧
  ∃ out,
    list_products (Some true) (Some "3D Trophy") world_unconfigured =
      (inr [out], world_unconfigured) ∧
    po_title out = "Sample Product" ∧ po_featured out = true.
Proof.
  split; [reflexivity|].
  apply (list_products_unconfigured (Some true) (Some "3D Trophy")
           world_unconfigured).
  reflexivity.
Defined.

(** C4, counterexample. With a clock that advances at every reading, the
    first record inserted into the empty store has [created_at] 0 and
    [updated_at] 1: the records do not all have equal stamps. *)
Lemma seed_products_stamps_differ :
  stored "product" world_empty_store = [] ∧
  (λ doc : Doc, (doc !! "created_at", doc !! "updated_at")) <$>
    stored "product" (seed_products_if_needed world_empty_store).2 =
    [(Some (VDatetime 0), Some (VDatetime 1));
     (Some (VDatetime 2), Some (VDatetime 3));
     (Some (VDatetime 4), Some (VDatetime 5));
     (Some (VDatetime 6), Some (VDatetime 7))] ∧
  ¬ Forall (λ doc : Doc, doc !! "created_at" = doc !! "updated_at")
      (stored "product" (seed_products_if_needed world_empty_store).2).
Proof.
  split; [reflexivity|]. split; [vm_compute; reflexivity|].
  intros Hall.
  apply (Forall_fmap
    (λ doc : Doc, (doc !! "created_at", doc !! "updated_at"))
    (λ stamps, stamps.1 = stamps.2)) in Hall.
  vm_compute in Hall. apply Forall_inv in Hall. discriminate.
Qed.

(** [seed_products_empty_store] on the empty store that never fails. *)
Lemma seed_products_empty_store_witness :
  db world_empty_store = Some store_empty ∧
  collection store_empty "product" = [] ∧
  fault store_empty (calls store_empty) = None ∧
  fault store_empty (S (calls store_empty)) = None ∧
  ∃ d',
    seed_products_if_needed world_empty_store =
      (inr tt,
       mkWorld (Some d') (clock world_empty_store)
         (reads world_empty_store + 8)%nat) ∧
    (λ doc : Doc, doc !! "title") <$> collection d' "product" =
      [Some (VStr "Precision Laser‑Cut Signage");
       Some (VStr "3D Trophy – Metallic Finish");
       Some (VStr "3D‑Style Product Mockup");
       Some (VStr "Custom Keychains")] ∧
    ∀ i doc, collection d' "product" !! i = Some doc →
      doc !! "created_at" =
        Some (VDatetime
                (clock world_empty_store
                   (reads world_empty_store + 2 * i)%nat)) ∧
      doc !! "updated_at" =
        Some (VDatetime
                (clock world_empty_store
                   (reads world_empty_store + 2 * i + 1)%nat)).
Proof.
  repeat (split; [reflexivity|]).
  apply (seed_products_empty_store world_empty_store store_empty);
    reflexivity.
Defined.

(** [invalid_enquiry_not_written] on a body without [name]. *)
Lemma invalid_enquiry_not_written_witness :
  EnquiryIn_validate enquiry_nameless = inl [FieldError "name" missing] ∧
  post_enquiries create_document enquiry_nameless world_empty_store =
    (UnprocessableEntity [FieldError "name" missing], world_empty_store) ∧
  [FieldError "name" missing] ≠ [] ∧
  ∀ e, e ∈ [FieldError "name" missing] → loc e ∈ enquiry_fields.
Proof.
  split; [vm_compute; reflexivity|].
  apply (invalid_enquiry_not_written create_document enquiry_nameless
           world_empty_store [FieldError "name" missing]).
  vm_compute; reflexivity.
Defined.

(** [to_product_out_present] on the first demo product. *)
Lemma to_product_out_present_witness :
  product_complete !! "title" = Some (VStr "Precision Laser‑Cut Signage") ∧
  product_complete !! "description" =
    Some (VStr "Crisp edges in acrylic/wood with custom finishes.") ∧
  product_complete !! "price" = Some (VFloat 149.0) ∧
  product_complete !! "category" = Some (VStr "2D Laser-cut") ∧
  product_complete !! "image" =
    Some (VStr "https://images.unsplash.com/photo-1518779578993-ec3579fee39f?q=80&w=1600&auto=format&fit=crop") ∧
  product_complete !! "featured" = Some (VBool true) ∧
  _to_product_out product_complete =
    inr (mkProductOut (py_str (dict_get product_complete "_id"))
           "Precision Laser‑Cut Signage"
           (Some "Crisp edges in acrylic/wood with custom finishes.")
           (Some 149.0%float) "2D Laser-cut"
           (Some "https://images.unsplash.com/photo-1518779578993-ec3579fee39f?q=80&w=1600&auto=format&fit=crop")
           true).
Proof.
  repeat (split; [reflexivity|]).
  apply (to_product_out_present product_complete
           "Precision Laser‑Cut Signage"
           (Some "Crisp edges in acrylic/wood with custom finishes.")
           149.0%float "2D Laser-cut"
           (Some "https://images.unsplash.com/photo-1518779578993-ec3579fee39f?q=80&w=1600&auto=format&fit=crop")
           true); reflexivity.
Defined.

End Examples.

(** * Further properties *)

(** ** The document mapper *)

Section MapperMore.
Context `{Runtime}.

(** The mapper reads seven keys; any other key of the document, such as
    [in_stock] or [created_at], has no effect on the result. *)
Theorem to_product_out_other_keys (doc : Doc) (key : string) (v : value) :
  key ∉ read_keys →
  _to_product_out (<[key := v]> doc) = _to_product_out doc ∧
  _to_product_out (delete key doc) = _to_product_out doc.
Proof.
  unfold read_keys. intros Hkey.
  rewrite !not_elem_of_cons in Hkey.
  destruct Hkey as (? & ? & ? & ? & ? & ? & ? & _).
  unfold _to_product_out, dict_get, dict_get_default.
  by rewrite !lookup_insert_ne, !lookup_delete_ne by done.
Qed.

(** [featured] is read by truthiness: whatever value the document holds
    there, the errors of the mapper are the same, and the output flag is
    [bool] of the value. *)
Theorem to_product_out_featured (doc : Doc) (v : value) :
  validation_errors (_to_product_out (<["featured" := v]> doc)) =
    validation_errors (_to_product_out doc) ∧
  (is_Some (validation_result (_to_product_out (<["featured" := v]> doc))) ↔
   is_Some (validation_result (_to_product_out doc))) ∧
  ∀ out, _to_product_out (<["featured" := v]> doc) = inr out →
         po_featured out = py_bool v.
Proof.
  unfold _to_product_out, dict_get, dict_get_default.
  rewrite lookup_insert_eq, !lookup_insert_ne by done. simpl.
  unfold ProductOut_new.
  destruct (field_str "title" _), (field_opt_str "description" _),
    (field_opt_float "price" _), (field_str "category" _),
    (field_opt_str "image" _); simpl;
    (split; [reflexivity|]); (split; [by split; intros [? ?]; eauto|]);
    intros out; try discriminate.
  by intros [= <-].
Qed.

(** The errors of the mapper name each offending field once, in the order
    in which [ProductOut] declares its fields. *)
Theorem to_product_out_errors_ordered (doc : Doc) :
  loc <$> validation_errors (_to_product_out doc) `sublist_of` checked_fields.
Proof.
  assert (Hstr : ∀ key v, loc <$> errs (field_str key v) `sublist_of` [key]).
  { intros key v. unfold field_str. destruct (coerce_str v); simpl.
    - apply sublist_nil_l.
    - reflexivity. }
  assert (Hopt : ∀ key v,
    loc <$> errs (field_opt_str key v) `sublist_of` [key]).
  { intros key v. unfold field_opt_str.
    destruct v; simpl; try apply sublist_nil_l;
      match goal with |- context [coerce_str ?v] => destruct (coerce_str v) end;
      simpl; first [apply sublist_nil_l | reflexivity]. }
  assert (Hflt : ∀ key v,
    loc <$> errs (field_opt_float key v) `sublist_of` [key]).
  { intros key v. unfold field_opt_float.
    destruct v; simpl; try apply sublist_nil_l;
      match goal with |- context [coerce_float ?v] =>
        destruct (coerce_float v) end;
      simpl; first [apply sublist_nil_l | reflexivity]. }
  unfold _to_product_out.
  match goal with |- context [ProductOut_new ?i ?t ?d ?p ?c ?m ?f] =>
    pose proof (ProductOut_new_cases i t d p c m f) as Hnew;
    pose proof (Hstr "title" t) as Ht;
    pose proof (Hopt "description" d) as Hd;
    pose proof (Hflt "price" p) as Hp;
    pose proof (Hstr "category" c) as Hc;
    pose proof (Hopt "image" m) as Hm
  end.
  destruct (ProductOut_new _ _ _ _ _ _ _) as [errors|out]; simpl.
  - destruct Hnew as [_ ->]. rewrite !fmap_app.
    change checked_fields with
      (["title"] ++ ["description"] ++ ["price"] ++ ["category"] ++ ["image"])%list.
    repeat apply sublist_app; assumption.
  - apply sublist_nil_l.
Qed.

End MapperMore.

(** ** Listing products *)

Section ListingMore.
Context `{Runtime}.

Lemma mapM_call_cons (doc : Doc) (docs : list Doc) (w : World) :
  mapM call_to_product_out (doc :: docs) w =
    match _to_product_out doc with
    | inl errors => (inl (PydanticError errors), w)
    | inr out =>
        match mapM call_to_product_out docs w with
        | (inr outs, w') => (inr (out :: outs), w')
        | (inl e, w') => (inl e, w')
        end
    end.
Proof.
  cbn [mapM]. unfold mbind, M_bind, call_to_product_out.
  destruct (_to_product_out doc) as [errors|out]; [reflexivity|].
  unfold mret at 1, M_ret at 1.
  destruct (mapM (M:=M) call_to_product_out docs w) as [[e|outs] w']; reflexivity.
Qed.

(** mapping documents leaves the world as it is *)
Lemma mapM_call_world (docs : list Doc) (w : World) :
  (mapM call_to_product_out docs w).2 = w.
Proof.
  induction docs as [|doc docs IH]; [reflexivity|].
  rewrite mapM_call_cons. destruct (_to_product_out doc); [reflexivity|].
  destruct (mapM (M:=M) call_to_product_out docs w) as [[e|outs] w']; exact IH.
Qed.

(** it returns the records of all documents, or raises the errors of one *)
Lemma mapM_call_cases (docs : list Doc) (w : World) :
  match (mapM call_to_product_out docs w).1 with
  | inr outs => Forall2 (λ doc out, _to_product_out doc = inr out) docs outs
  | inl e => ∃ doc errors, doc ∈ docs ∧ _to_product_out doc = inl errors ∧
                           e = PydanticError errors
  end.
Proof.
  induction docs as [|doc docs IH]; [constructor|].
  rewrite mapM_call_cons.
  destruct (_to_product_out doc) as [errors|out] eqn:Hdoc; simpl.
  - exists doc, errors. split; [left|done].
  - destruct (mapM (M:=M) call_to_product_out docs w) as [[e|outs] w']; simpl in *.
    + destruct IH as (doc' & errors & Hin & Hfail & ->).
      exists doc', errors. split; [by right|done].
    + by constructor.
Qed.

Lemma insert_desc_perm (key : string) (doc : Doc) (docs : list Doc) :
  insert_desc key doc docs ≡ₚ doc :: docs.
Proof.
  induction docs as [|x docs IH]; simpl; [done|].
  destruct (bson_leb _ _); [done|].
  rewrite IH. apply Permutation_swap.
Qed.

(** sorting keeps the documents *)
Lemma sort_desc_perm (key : string) (docs : list Doc) :
  sort_desc key docs ≡ₚ docs.
Proof.
  unfold sort_desc. induction docs as [|x docs IH]; simpl; [done|].
  by rewrite insert_desc_perm, IH.
Qed.

(** Listing products reads: the contents of the store, the clock and the
    number of its readings are after the call what they were before,
    whatever the filters and whether or not the call raises. *)
Theorem list_products_read_only (featured : option bool)
  (category : option string) (w : World) :
  let w' := (list_products featured category w).2 in
  (∀ name, stored name w' = stored name w) ∧
  (db w' = None ↔ db w = None) ∧
  clock w' = clock w ∧ reads w' = reads w.
Proof.
  intros w'.
  assert (Hw' : w' = match db w with
                     | Some d => mkWorld (Some (called d)) (clock w) (reads w)
                     | None => w
                     end).
  { subst w'. destruct w as [[d|] clk r];
      unfold list_products, mbind, M_bind, get_db; cbn [db].
    - unfold on_db, find_sorted. cbn [db clock reads].
      destruct (fault d (calls d)); [reflexivity|]. apply mapM_call_world.
    - apply mapM_call_world. }
  rewrite Hw'. destruct w as [[d|] clk r]; simpl; repeat split; done.
Qed.

(** A failure of the store while listing is not swallowed: the handler
    raises it. *)
Theorem list_products_store_failure (featured : option bool)
  (category : option string) (w : World) (d : Database) :
  db w = Some d → is_Some (fault d (calls d)) →
  (list_products featured category w).1 = inl PyMongoError.
Proof.
  intros Hdb [k Hk]. destruct w as [dbw clk r]. simpl in Hdb. subst dbw.
  unfold list_products, mbind, M_bind, get_db. cbn [db].
  unfold on_db, find_sorted. cbn [db]. by rewrite Hk.
Qed.

(** On a store that answers, the listing is all or nothing: either one
    record for each stored product that matches the query, each the image
    of its document under the mapper, or the validation error of one of the
    matching documents. *)
Theorem list_products_matching (featured : option bool)
  (category : option string) (w : World) (d : Database) :
  db w = Some d → fault d (calls d) = None →
  let matching :=
    filter (λ doc, matches (products_query featured category) doc = true)
      (collection d "product") in
  match (list_products featured category w).1 with
  | inr outs =>
      ∃ docs, docs ≡ₚ matching ∧
              Forall2 (λ doc out, _to_product_out doc = inr out) docs outs
  | inl e =>
      ∃ doc errors, doc ∈ matching ∧ _to_product_out doc = inl errors ∧
                    e = PydanticError errors
  end.
Proof.
  intros Hdb Hok matching. destruct w as [dbw clk r]. simpl in Hdb.
  subst dbw.
  unfold list_products, mbind, M_bind, get_db. cbn [db].
  unfold on_db, find_sorted. cbn [db]. rewrite Hok.
  fold matching.
  match goal with |- context [mapM call_to_product_out ?l ?w0] =>
    pose proof (mapM_call_cases l w0) as Hcases;
    destruct (mapM call_to_product_out l w0) as [[e|outs] w1]
  end; simpl in *.
  - destruct Hcases as (doc & errors & Hin & Hfail & ->).
    exists doc, errors. split; [|done].
    by rewrite <- (sort_desc_perm "created_at" matching).
  - exists (sort_desc "created_at" matching). split; [|done].
    apply sort_desc_perm.
Qed.

(** the characterisation of the listing, without filters *)
Lemma list_products_matching_all (w : World) (d : Database) :
  db w = Some d → fault d (calls d) = None →
  match (list_products None None w).1 with
  | inr outs =>
      ∃ docs, docs ≡ₚ collection d "product" ∧
              Forall2 (λ doc out, _to_product_out doc = inr out) docs outs
  | inl e =>
      ∃ doc errors, doc ∈ collection d "product" ∧
                    _to_product_out doc = inl errors ∧
                    e = PydanticError errors
  end.
Proof.
  intros Hdb Hok. destruct w as [dbw clk r]. simpl in Hdb. subst dbw.
  unfold list_products, mbind, M_bind, get_db. cbn [db].
  unfold on_db, find_sorted. cbn [db]. rewrite Hok.
  assert (Hall : filter (λ doc, matches (products_query None None) doc = true)
                   (collection d "product") = collection d "product").
  { induction (collection d "product") as [|doc docs IH]; [done|].
    rewrite filter_cons_True by done. by rewrite IH. }
  rewrite Hall.
  match goal with |- context [mapM call_to_product_out ?l ?w0] =>
    pose proof (mapM_call_cases l w0) as Hcases;
    destruct (mapM call_to_product_out l w0) as [[e|outs] w1]
  end; simpl in *.
  - destruct Hcases as (doc & errors & Hin & Hfail & ->).
    exists doc, errors. split; [|done].
    by rewrite <- (sort_desc_perm "created_at" (collection d "product")).
  - exists (sort_desc "created_at" (collection d "product")). split; [|done].
    apply sort_desc_perm.
Qed.

(** Without filters the query is empty and every stored product matches:
    when each of them maps, the listing has one record for each. *)
Theorem list_products_unfiltered (w : World) (d : Database) :
  db w = Some d → fault d (calls d) = None →
  Forall (λ doc, is_Some (validation_result (_to_product_out doc)))
    (collection d "product") →
  ∃ outs docs,
    (list_products None None w).1 = inr outs ∧
    docs ≡ₚ collection d "product" ∧
    Forall2 (λ doc out, _to_product_out doc = inr out) docs outs ∧
    length outs = length (collection d "product").
Proof.
  intros Hdb Hok Hall.
  pose proof (list_products_matching_all w d Hdb Hok) as Hlist.
  destruct ((list_products None None w).1) as [e|outs].
  - destruct Hlist as (doc & errors & Hin & Hfail & _).
    rewrite Forall_forall in Hall. apply Hall in Hin.
    rewrite Hfail in Hin. by destruct Hin.
  - destruct Hlist as (docs & Hperm & Hmap).
    exists outs, docs. repeat split; try done.
    by rewrite <- (Forall2_length _ _ _ Hmap), Hperm.
Qed.

(** what an equality filter asks of a document *)
Lemma matches_spec (query doc : Doc) :
  matches query doc = true ↔
  ∀ key v, query !! key = Some v →
           ∃ v', doc !! key = Some v' ∧ bson_eqb v v' = true.
Proof.
  unfold matches. rewrite forallb_forall. split.
  - intros Hall key v Hq.
    specialize (Hall (key, v)). simpl in Hall.
    destruct (doc !! key) as [v'|].
    + exists v'. split; [done|]. apply Hall.
      apply list_elem_of_In. by apply elem_of_map_to_list.
    + discriminate Hall.
      apply list_elem_of_In. by apply elem_of_map_to_list.
  - intros Hall [key v] Hin. simpl.
    apply list_elem_of_In, elem_of_map_to_list in Hin.
    by destruct (Hall key v Hin) as (v' & -> & Heq).
Qed.

(** the keys of the query that [list_products] builds *)
Lemma products_query_lookup (featured : option bool)
  (category : option string) (key : string) (v : value) :
  products_query featured category !! key = Some v ↔
  (key = "featured" ∧ ∃ b, featured = Some b ∧ v = VBool b) ∨
  (key = "category" ∧ ∃ s, category = Some s ∧ s ≠ "" ∧ v = VStr s).
Proof.
  unfold products_query.
  destruct featured as [b|], category as [s|]; simpl;
    try destruct (String.eqb_spec s "") as [->|Hs]; simpl;
    repeat (rewrite lookup_insert; case_decide; subst);
    rewrite ?lookup_empty;
    (split;
     [ intros ?; simplify_eq; eauto 10
     | intros [(? & ? & ? & ?) | (? & ? & ? & ? & ?)]; simplify_eq; done ]).
Qed.

(** C10. The store is asked for the products that match the query built
    from the two parameters, and the listing is made of exactly those. In
    that query an empty [category] is the absent [category]: no document is
    left out for its category. [featured], when given, is always in the
    query, also when it is [False]: only documents whose [featured] equals
    it are listed. *)
Theorem list_products_filters (featured : option bool) :
  products_query featured (Some "") = products_query featured None ∧
  products_query featured (Some "") !! "category" = None ∧
  list_products featured (Some "") = list_products featured None ∧
  (∀ b category,
     products_query (Some b) category !! "featured" = Some (VBool b)) ∧
  (∀ category c,
     products_query featured category !! "category" = Some c →
     ∃ s, category = Some s ∧ s ≠ "" ∧ c = VStr s) ∧
  (∀ category doc,
     matches (products_query featured category) doc = true ↔
     (∀ b, featured = Some b →
           ∃ v, doc !! "featured" = Some v ∧ bson_eqb (VBool b) v = true) ∧
     (∀ s, category = Some s → s ≠ "" →
           ∃ v, doc !! "category" = Some v ∧ bson_eqb (VStr s) v = true)) ∧
  (∀ category w d,
     db w = Some d → fault d (calls d) = None →
     match (list_products featured category w).1 with
     | inr outs =>
         ∃ docs,
           docs ≡ₚ filter (λ doc, matches (products_query featured category)
                                    doc = true) (collection d "product") ∧
           Forall2 (λ doc out, _to_product_out doc = inr out) docs outs
     | inl e =>
         ∃ doc errors,
           doc ∈ filter (λ doc, matches (products_query featured category)
                                  doc = true) (collection d "product") ∧
           _to_product_out doc = inl errors ∧ e = PydanticError errors
     end).
Proof.
  destruct (products_query_filters featured) as (H1 & H2 & H3 & H4 & H5).
  do 5 (split; [assumption|]). split.
  - intros category doc. rewrite matches_spec. split.
    + intros Hall. split.
      * intros b ->. apply (Hall "featured" (VBool b)).
        apply products_query_lookup. left. eauto.
      * intros s -> Hs. apply (Hall "category" (VStr s)).
        apply products_query_lookup. right. eauto.
    + intros [Hf Hc] key v Hq.
      apply products_query_lookup in Hq
        as [[-> (b & Hb & ->)] | [-> (s & Hs & Hne & ->)]]; eauto.
  - intros category w d Hdb Hok.
    destruct w as [dbw clk r]. simpl in Hdb. subst dbw.
    unfold list_products, mbind, M_bind, get_db. cbn [db].
    unfold on_db, find_sorted. cbn [db]. rewrite Hok.
    set (matching := filter _ (collection d "product")).
    match goal with |- context [mapM call_to_product_out ?l ?w0] =>
      pose proof (mapM_call_cases l w0) as Hcases;
      destruct (mapM call_to_product_out l w0) as [[e|outs] w1]
    end; simpl in *.
    + destruct Hcases as (doc & errors & Hin & Hfail & ->).
      exists doc, errors. split; [|done].
      by rewrite <- (sort_desc_perm "created_at" matching).
    + exists (sort_desc "created_at" matching). split; [|done].
      apply sort_desc_perm.
Qed.

End ListingMore.

(** ** The seeder *)

Section SeederMore.
Context `{Runtime}.

(** The seeder writes to no collection but [product], keeps every product
    already stored, in place, and adds at most four: this in every world,
    also when the store fails during the run. *)
Theorem seed_products_only_appends (w : World) (d : Database) :
  db w = Some d →
  ∃ d', db (seed_products_if_needed w).2 = Some d' ∧
        (∀ name, name ≠ "product" → collection d' name = collection d name) ∧
        collection d "product" `prefix_of` collection d' "product" ∧
        (length (collection d' "product")
           ≤ length (collection d "product") + 4)%nat.
Proof.
  intros Hdb. destruct w as [dbw clk r]. simpl in Hdb. subst dbw.
  unfold seed_products_if_needed, try_except, seed_products_body, mbind,
    M_bind, get_db. cbn [db].
  unfold on_db at 1. cbn [db]. unfold count_documents.
  destruct (fault d (calls d)) as [k|].
  { exists (called d). simpl.
    change (collection (called d) "product") with (collection d "product").
    split; [done|]. split; [done|]. split; [done|lia]. }
  destruct (collection d "product") as [|p ps] eqn:Hcoll.
  2:{ exists (called d). simpl.
      change (collection (called d) "product") with (collection d "product").
      rewrite Hcoll.
      split; [done|]. split; [done|]. split; [done|simpl; lia]. }
  cbn [length]. change (Z.of_nat 0 =? 0) with true. cbv beta iota.
  rewrite mapM_stamp_run. cbn [db clock reads].
  unfold on_db, insert_many. cbn [db clock reads].
  rewrite assign_ids_fresh by apply stamped_no_id, demo_products_no_id.
  change (collection (called d) "product") with (collection d "product").
  rewrite Hcoll. unfold called at 1 2. cbn [fault calls].
  set (docs := imap _ (stamped clk r demo_products)).
  assert (Hlen : length docs = 4%nat).
  { unfold docs. by rewrite length_imap, stamped_length. }
  destruct (fault d (S (calls d))) as [k|]; eexists; (split; [reflexivity|]);
    unfold collection; cbn [collections];
    rewrite lookup_insert_eq; cbn [default id];
    (split; [by intros name Hname; rewrite lookup_insert_ne|]);
    (split; [apply prefix_nil|]); cbn [app length]; rewrite length_take; lia.
Qed.

(** After a run that seeded an empty store, a second run of the seeder
    returns normally and changes no collection, whatever the store does
    then: the four products stay four. *)
Theorem seed_products_twice (w : World) (d : Database) :
  db w = Some d →
  collection d "product" = [] →
  fault d (calls d) = None →
  fault d (S (calls d)) = None →
  let w1 := (seed_products_if_needed w).2 in
  let w2 := (seed_products_if_needed w1).2 in
  (seed_products_if_needed w1).1 = inr tt ∧
  (∀ name, stored name w2 = stored name w1) ∧
  length (stored "product" w2) = 4%nat.
Proof.
  intros Hdb Hcoll Hcount Hinsert w1 w2.
  assert (Hw1 : ∃ d1, w1 = mkWorld (Some d1) (clock w) (reads w + 8)%nat ∧
                      length (collection d1 "product") = 4%nat).
  { subst w1. unfold seed_products_if_needed, try_except.
    rewrite (seed_products_body_empty w d) by done.
    eexists. split; [reflexivity|].
    unfold collection. cbn [collections]. rewrite lookup_insert_eq.
    cbn [default id]. by rewrite length_imap, stamped_length. }
  destruct Hw1 as (d1 & Hw1 & Hlen).
  assert (Hne : collection d1 "product" ≠ []).
  { intros Hnil. by rewrite Hnil in Hlen. }
  assert (Hdb1 : db w1 = Some d1) by (by rewrite Hw1).
  destruct (seed_products_body_nonempty w1 d1 Hdb1 Hne)
    as (res & d2 & Hrun & Hd2).
  assert (Hw2 : w2 = mkWorld (Some d2) (clock w1) (reads w1)).
  { subst w2. unfold seed_products_if_needed, try_except. rewrite Hrun.
    by destruct res as [e|[]]. }
  split; [|split].
  - unfold seed_products_if_needed, try_except. rewrite Hrun.
    by destruct res as [e|[]].
  - intros name. rewrite Hw2. rewrite Hw1 at 3. unfold stored, collection.
    simpl. by rewrite Hd2.
  - rewrite Hw2. unfold stored, collection. simpl. rewrite Hd2. exact Hlen.
Qed.

(** a stored document with the six fields of a product maps *)
Lemma stored_product_maps (p : Doc) (i u c : value) (title description : string)
  (price : float) (category image : string) (featured : bool) :
  p !! "title" = Some (VStr title) →
  p !! "description" = Some (VStr description) →
  p !! "price" = Some (VFloat price) →
  p !! "category" = Some (VStr category) →
  p !! "image" = Some (VStr image) →
  p !! "featured" = Some (VBool featured) →
  _to_product_out
    (<["_id" := i]> (<["updated_at" := u]> (<["created_at" := c]> p))) =
    inr (mkProductOut (py_str i) title (Some description) (Some price)
           category (Some image) featured).
Proof.
  intros Ht Hd Hp Hc Hi Hf.
  rewrite (to_product_out_eval _ title (Some description) (Some price)
             category (Some image) featured);
    unfold dict_get, dict_get_default;
    rewrite ?lookup_insert_eq, ?lookup_insert_ne by done;
    rewrite ?Ht, ?Hd, ?Hp, ?Hc, ?Hi, ?Hf; reflexivity.
Qed.

(** What the seeder wrote is what the listing reads: after a run that
    seeded an empty store, the listing without filters, the store answering,
    has the four demo products with their prices and flags. *)
Theorem seed_then_list (w : World) (d : Database) :
  db w = Some d →
  collection d "product" = [] →
  fault d (calls d) = None →
  fault d (S (calls d)) = None →
  fault d (S (S (calls d))) = None →
  ∃ outs,
    (list_products None None (seed_products_if_needed w).2).1 = inr outs ∧
    (λ out, (po_title out, po_price out, po_featured out)) <$> outs ≡ₚ
      [("Precision Laser‑Cut Signage", Some 149.0%float, true);
       ("3D Trophy – Metallic Finish", Some 249.0%float, true);
       ("3D‑Style Product Mockup", Some 99.0%float, true);
       ("Custom Keychains", Some 5.0%float, false)].
Proof.
  intros Hdb Hcoll Hcount Hinsert Hfind.
  unfold seed_products_if_needed, try_except.
  rewrite (seed_products_body_empty w d) by done. cbn [snd].
  match goal with |- context [mkWorld (Some ?d0) ?c ?r] =>
    set (d1 := d0); set (w1 := mkWorld (Some d1) c r) end.
  pose proof (list_products_matching_all w1 d1 eq_refl Hfind) as Hlist.
  set (line := λ out : ProductOut, (po_title out, po_price out, po_featured out)).
  set (guess := λ doc : Doc,
         match _to_product_out doc with
         | inr out => line out
         | inl _ => ("", None, false)
         end).
  assert (Hguess : ∀ docs outs,
    Forall2 (λ doc out, _to_product_out doc = inr out) docs outs →
    line <$> outs = guess <$> docs).
  { induction 1 as [|doc out docs outs Hdoc _ IH]; [done|].
    rewrite !fmap_cons, IH. f_equal. unfold guess. by rewrite Hdoc. }
  assert (Hstored : ∃ outs0,
    Forall2 (λ doc out, _to_product_out doc = inr out)
      (collection d1 "product") outs0 ∧
    line <$> outs0 =
      [("Precision Laser‑Cut Signage", Some 149.0%float, true);
       ("3D Trophy – Metallic Finish", Some 249.0%float, true);
       ("3D‑Style Product Mockup", Some 99.0%float, true);
       ("Custom Keychains", Some 5.0%float, false)]).
  { unfold collection, d1. cbn [collections]. rewrite lookup_insert_eq.
    cbn [default id]. unfold demo_products. cbn [stamped imap].
    unfold compose. cbv beta. eexists. split.
    - repeat (econstructor; [eapply stored_product_maps; reflexivity|]).
      constructor.
    - reflexivity. }
  destruct Hstored as (outs0 & Hmaps & Hlines).
  destruct ((list_products None None w1).1) as [e|outs].
  - destruct Hlist as (doc & errors & Hin & Hfail & _).
    apply list_elem_of_lookup in Hin as [i Hi].
    destruct (Forall2_lookup_l _ _ _ _ _ Hmaps Hi) as (out & _ & Hout).
    congruence.
  - destruct Hlist as (docs & Hperm & Hdocs).
    exists outs. split; [done|].
    rewrite <- Hlines. change (line <$> outs ≡ₚ line <$> outs0).
    by rewrite (Hguess _ _ Hdocs), (Hguess _ _ Hmaps), Hperm.
Qed.

End SeederMore.

(** ** Enquiries *)

Section EnquiryMore.
Context `{Runtime}.

(** a validated enquiry holds the outcome of each of its nine fields *)
Lemma validate_enquiry_inr
  (field_product_type : string → value → field_error + string) (raw : Doc)
  (e : EnquiryIn) :
  validate_enquiry field_product_type raw = inr e ↔
  required raw "name" field_str = inr (name e) ∧
  required raw "email" field_email = inr (email e) ∧
  optional raw "phone" field_opt_str = inr (phone e) ∧
  optional raw "company" field_opt_str = inr (company e) ∧
  required raw "product_type" field_product_type = inr (product_type e) ∧
  optional raw "quantity" (field_opt_int_ge 1) = inr (quantity e) ∧
  optional raw "budget_range" field_opt_str = inr (budget_range e) ∧
  required raw "message" field_str = inr (message e) ∧
  optional raw "reference_url" field_opt_str = inr (reference_url e).
Proof.
  unfold validate_enquiry.
  destruct (required raw "name" field_str),
    (required raw "email" field_email),
    (optional raw "phone" field_opt_str),
    (optional raw "company" field_opt_str),
    (required raw "product_type" field_product_type),
    (optional raw "quantity" (field_opt_int_ge 1)),
    (optional raw "budget_range" field_opt_str),
    (required raw "message" field_str),
    (optional raw "reference_url" field_opt_str);
    (split; [intros [= <-] | intros (?&?&?&?&?&?&?&?&?)]);
    try discriminate; simpl.
  - done.
  - destruct e. simpl in *. congruence.
Qed.

(** [product_type] as [schemas.Enquiry] and [main.EnquiryIn] check it *)
Lemma product_type_literal_str (raw : Doc) (t : string) :
  required raw "product_type" (field_literal product_types) = inr t ↔
  required raw "product_type" field_str = inr t ∧
  ∃ p, raw !! "product_type" = Some (VStr p) ∧ p ∈ product_types.
Proof.
  unfold required, field_literal, field_str.
  destruct (raw !! "product_type") as [v|]; [|split; [done|by intros [? ?]]].
  split.
  - destruct v; try discriminate. case_bool_decide; [|discriminate].
    intros [= ->]. rewrite coerce_str_str. eauto.
  - intros [Ht (p & [= ->] & Hp)]. rewrite coerce_str_str in Ht.
    rewrite bool_decide_eq_true_2 by done. done.
Qed.

(** [schemas.Enquiry] accepts exactly the bodies that [main.EnquiryIn]
    accepts and whose [product_type] is one of the four listed strings; the
    validated record is the same. *)
Theorem Enquiry_iff_EnquiryIn (raw : Doc) (e : EnquiryIn) :
  Enquiry_validate raw = inr e ↔
  EnquiryIn_validate raw = inr e ∧
  ∃ p, raw !! "product_type" = Some (VStr p) ∧ p ∈ product_types.
Proof.
  unfold Enquiry_validate, EnquiryIn_validate.
  rewrite !validate_enquiry_inr, product_type_literal_str. tauto.
Qed.

(** Keys of the body that are not fields of the enquiry are ignored, by
    both models. *)
Theorem validate_enquiry_extra_keys (raw : Doc) (key : string) (v : value) :
  key ∉ enquiry_fields →
  EnquiryIn_validate (<[key := v]> raw) = EnquiryIn_validate raw ∧
  Enquiry_validate (<[key := v]> raw) = Enquiry_validate raw.
Proof.
  unfold enquiry_fields. intros Hkey. rewrite !not_elem_of_cons in Hkey.
  destruct Hkey as (? & ? & ? & ? & ? & ? & ? & ? & ? & _).
  unfold Enquiry_validate, EnquiryIn_validate, validate_enquiry, required,
    optional.
  by rewrite !lookup_insert_ne by done.
Qed.

(** In a validated enquiry the quantity, when there is one, is at least 1;
    there is none exactly when the body has no [quantity] or has [None]
    there. *)
Theorem EnquiryIn_quantity (raw : Doc) (e : EnquiryIn) :
  EnquiryIn_validate raw = inr e →
  (∀ n, quantity e = Some n → 1 ≤ n) ∧
  (quantity e = None ↔
   raw !! "quantity" = None ∨ raw !! "quantity" = Some VNone).
Proof.
  unfold EnquiryIn_validate. rewrite validate_enquiry_inr.
  intros (_ & _ & _ & _ & _ & Hq & _). revert Hq.
  assert (Hsome : ∀ v, v ≠ VNone →
    field_opt_int_ge 1 "quantity" v = inr (quantity e) →
    ∃ n, quantity e = Some n ∧ 1 ≤ n).
  { intros v Hv. unfold field_opt_int_ge.
    destruct (coerce_int v) as [q|].
    - destruct (Z.leb_spec 1 q); destruct v; try done; intros [= <-]; eauto.
    - destruct v; done. }
  unfold optional. destruct (raw !! "quantity") as [v|].
  2:{ intros [= <-]. split; [done|]. split; auto. }
  destruct v;
    [ intros [= <-]; split; [done|]; split; auto | ..];
    intros Hq; apply Hsome in Hq as (q & Hn & Hle); try discriminate;
    rewrite Hn; (split; [intros ? [= <-]; lia|]);
    (split; [discriminate | intros [?|?]; discriminate]).
Qed.

(** A body that lacks a field without default has an error [missing] at
    that field; a field with default that the body lacks gives no error. *)
Theorem EnquiryIn_missing_fields (raw : Doc) (key : string) :
  raw !! key = None →
  (key ∈ required_fields →
   FieldError key missing ∈ validation_errors (EnquiryIn_validate raw)) ∧
  (key ∈ optional_fields →
   ∀ e, e ∈ validation_errors (EnquiryIn_validate raw) → loc e ≠ key).
Proof.
  intros Hkey. unfold EnquiryIn_validate. rewrite validate_enquiry_errors.
  split.
  - unfold required_fields. rewrite !elem_of_cons, elem_of_nil.
    intros [->|[->|[->|[->|[]]]]]; rewrite !elem_of_app;
      unfold required at 1 2 3 4; rewrite Hkey; simpl; set_solver.
  - unfold optional_fields. rewrite !elem_of_cons, elem_of_nil.
    intros Hopt e He Hloc. rewrite !elem_of_app in He.
    destruct He as [He|[He|[He|[He|[He|[He|[He|[He|He]]]]]]]];
      pose proof He as He';
      [ apply (required_located _ _ _ _ field_str_located) in He
      | apply (required_located _ _ _ _ field_email_located) in He
      | apply (optional_located _ _ _ _ field_opt_str_located) in He
      | apply (optional_located _ _ _ _ field_opt_str_located) in He
      | apply (required_located _ _ _ _ field_str_located) in He
      | apply (optional_located _ _ _ _ (field_opt_int_ge_located 1)) in He
      | apply (optional_located _ _ _ _ field_opt_str_located) in He
      | apply (required_located _ _ _ _ field_str_located) in He
      | apply (optional_located _ _ _ _ field_opt_str_located) in He ];
      rewrite He in Hloc; subst key;
      first [ by destruct Hopt as [?|[?|[?|[?|[?|[]]]]]]
            | unfold optional in He'; rewrite Hkey in He';
              by apply not_elem_of_nil in He' ].
Qed.

(** A body with the four fields without default, as strings, the address
    being one that the email check takes, is accepted; the fields with
    default are [None] and the address is as normalised. *)
Theorem EnquiryIn_minimal (n a a' p m : string) :
  validate_email a = Some a' →
  EnquiryIn_validate
    (list_to_map [("name", VStr n); ("email", VStr a);
                  ("product_type", VStr p); ("message", VStr m)]) =
    inr (mkEnquiryIn n a' None None p None None m None).
Proof.
  intros Ha. unfold EnquiryIn_validate. apply validate_enquiry_inr.
  unfold required, optional, field_str, field_email. simpl.
  repeat (rewrite lookup_insert_eq || rewrite lookup_insert_ne by done).
  rewrite ?lookup_empty, !coerce_str_str, Ha. done.
Qed.

(** what the check of [quantity] returns decides the errors at [quantity] *)
Lemma quantity_errors (raw : Doc) :
  match optional raw "quantity" (field_opt_int_ge 1) with
  | inl e =>
      ∃ errors, EnquiryIn_validate raw = inl errors ∧ e ∈ errors
  | inr q =>
      (∀ e, e ∈ validation_errors (EnquiryIn_validate raw) →
            loc e ≠ "quantity") ∧
      (∀ e, EnquiryIn_validate raw = inr e → quantity e = q)
  end.
Proof.
  destruct (optional raw "quantity" (field_opt_int_ge 1)) as [e|q] eqn:Hq.
  - apply elem_of_validation_errors. unfold EnquiryIn_validate.
    rewrite validate_enquiry_errors, !elem_of_app.
    do 5 right. left. rewrite Hq. simpl. set_solver.
  - split.
    + intros e He Hloc.
      apply (validate_enquiry_located _ _ _ field_str_located) in He
        as (_ & Hquantity & _).
      apply Hquantity in Hloc. rewrite Hq in Hloc.
      by apply not_elem_of_nil in Hloc.
    + intros e. unfold EnquiryIn_validate. rewrite validate_enquiry_inr.
      intros (_ & _ & _ & _ & _ & Hq' & _). congruence.
Qed.

(** C7, as amended. A [quantity] other than [None] is read through the
    coercion of an [int] field. When it is read as an integer below 1, or
    is not read as an integer, the validation fails with an error at
    [quantity]; when it is read as an integer from 1 on, as every such
    integer is, there is no error at [quantity] and the validated quantity
    is that integer. No [quantity], or [None], gives no error either. An
    error at [quantity] has no other cause. *)
Theorem quantity_validation (raw : Doc) :
  (∀ n, raw !! "quantity" = Some (VInt n) → n ≤ 0 →
     ∃ errors, EnquiryIn_validate raw = inl errors ∧
               FieldError "quantity" (greater_than_equal 1) ∈ errors) ∧
  (∀ v, raw !! "quantity" = Some v → v ≠ VNone → coerce_int v = None →
     ∃ errors, EnquiryIn_validate raw = inl errors ∧
               FieldError "quantity" int_type ∈ errors) ∧
  (∀ n, raw !! "quantity" = Some (VInt n) → 1 ≤ n →
     ∀ e, e ∈ validation_errors (EnquiryIn_validate raw) →
          loc e ≠ "quantity") ∧
  (raw !! "quantity" = None →
     ∀ e, e ∈ validation_errors (EnquiryIn_validate raw) →
          loc e ≠ "quantity") ∧
  (∀ v n, raw !! "quantity" = Some v → v ≠ VNone →
     coerce_int v = Some n → n < 1 →
     ∃ errors, EnquiryIn_validate raw = inl errors ∧
               FieldError "quantity" (greater_than_equal 1) ∈ errors) ∧
  (∀ v n, raw !! "quantity" = Some v → v ≠ VNone →
     coerce_int v = Some n → 1 ≤ n →
     (∀ e, e ∈ validation_errors (EnquiryIn_validate raw) →
           loc e ≠ "quantity") ∧
     (∀ e, EnquiryIn_validate raw = inr e → quantity e = Some n)) ∧
  (raw !! "quantity" = None ∨ raw !! "quantity" = Some VNone →
     (∀ e, e ∈ validation_errors (EnquiryIn_validate raw) →
           loc e ≠ "quantity") ∧
     (∀ e, EnquiryIn_validate raw = inr e → quantity e = None)) ∧
  (∀ e, e ∈ validation_errors (EnquiryIn_validate raw) →
     loc e = "quantity" →
     ∃ v, raw !! "quantity" = Some v ∧ v ≠ VNone ∧
          ((e = FieldError "quantity" int_type ∧ coerce_int v = None) ∨
           (e = FieldError "quantity" (greater_than_equal 1) ∧
            ∃ n, coerce_int v = Some n ∧ n < 1))).
Proof.
  pose proof (quantity_errors raw) as Hq.
  assert (Hsome : ∀ v, raw !! "quantity" = Some v → v ≠ VNone →
    optional raw "quantity" (field_opt_int_ge 1) =
      match coerce_int v with
      | Some n => if 1 <=? n then inr (Some n)
                  else inl (FieldError "quantity" (greater_than_equal 1))
      | None => inl (FieldError "quantity" int_type)
      end).
  { intros v Hv Hnone. unfold optional, field_opt_int_ge. rewrite Hv.
    by destruct v. }
  assert (Hnone : raw !! "quantity" = None ∨ raw !! "quantity" = Some VNone →
    optional raw "quantity" (field_opt_int_ge 1) = inr None).
  { unfold optional. by intros [-> | ->]. }
  split; [|split; [|split; [|split; [|split; [|split; [|split]]]]]].
  - intros n Hn Hle. rewrite (Hsome _ Hn), coerce_int_int in Hq by done.
    destruct (Z.leb_spec 1 n); [lia|done].
  - intros v Hv Hv' Hint. by rewrite (Hsome _ Hv Hv'), Hint in Hq.
  - intros n Hn Hle. rewrite (Hsome _ Hn), coerce_int_int in Hq by done.
    destruct (Z.leb_spec 1 n); [|lia]. by destruct Hq.
  - intros Hn. rewrite Hnone in Hq by auto. by destruct Hq.
  - intros v n Hv Hv' Hint Hlt. rewrite (Hsome _ Hv Hv'), Hint in Hq.
    destruct (Z.leb_spec 1 n); [lia|done].
  - intros v n Hv Hv' Hint Hle. rewrite (Hsome _ Hv Hv'), Hint in Hq.
    destruct (Z.leb_spec 1 n); [done|lia].
  - intros Hn. by rewrite Hnone in Hq.
  - intros e He Hloc. clear Hq.
    apply (validate_enquiry_located _ _ _ field_str_located) in He
      as (_ & Hquantity & _).
    apply Hquantity, elem_of_errs in Hloc.
    destruct (raw !! "quantity") as [v|] eqn:Hv.
    2:{ rewrite Hnone in Hloc by auto. discriminate. }
    assert (Hv' : v ≠ VNone).
    { intros ->. rewrite Hnone in Hloc by auto. discriminate. }
    exists v. split; [done|]. split; [done|].
    rewrite (Hsome v eq_refl Hv') in Hloc.
    destruct (coerce_int v) as [n|].
    + destruct (Z.leb_spec 1 n); [discriminate|].
      injection Hloc as <-. right. eauto.
    + injection Hloc as <-. by left.
Qed.

End EnquiryMore.

(** ** The enquiry route *)

Section RouteMore.
Context `{Runtime}.
Variable helper : string → EnquiryIn → M string.

(** The handler calls [create_document] once, on the collection
    [enquiry]. It returns the identifier that the call gave, with the
    reading of the clock taken after the call; and whatever the call raises
    is raised again as an [HTTPException] of status 500 whose detail is
    ["Failed to submit: "] followed by the text of the exception. *)
Theorem create_enquiry_outcomes (payload : EnquiryIn) (w : World) :
  match create_enquiry helper payload w with
  | (inr out, w') =>
      ∃ w1, helper "enquiry" payload w = (inr (eo_id out), w1) ∧
            eo_created_at out = clock w1 (reads w1) ∧
            w' = mkWorld (db w1) (clock w1) (S (reads w1))
  | (inl e, w') =>
      ∃ e0, helper "enquiry" payload w = (inl e0, w') ∧
            e = HTTPException 500 ("Failed to submit: " +:+ exc_str e0)
  end.
Proof.
  unfold create_enquiry, try_except, mbind, M_bind.
  destruct (helper "enquiry" payload w) as [[e0|inserted_id] w1]; simpl.
  - eauto.
  - eauto.
Qed.

(** the two outcomes of the handler, by the outcome of [create_document] *)
Lemma create_enquiry_raw (payload : EnquiryIn) (w : World) :
  match create_enquiry helper payload w with
  | (inr out, w') =>
      ∃ w1, helper "enquiry" payload w = (inr (eo_id out), w1) ∧
            w' = mkWorld (db w1) (clock w1) (S (reads w1))
  | (inl e, w') =>
      ∃ e0, helper "enquiry" payload w = (inl e0, w') ∧
            e = HTTPException 500 ("Failed to submit: " +:+ exc_str e0)
  end.
Proof.
  unfold create_enquiry, try_except, mbind, M_bind.
  destruct (helper "enquiry" payload w) as [[e0|inserted_id] w1]; simpl;
    eauto.
Qed.

(** The route answers in three ways only: 422 with the errors of the body,
    201 with the identifier that [create_document] gave for the validated
    body, or 500 with a detail that starts with ["Failed to submit: "]. *)
Theorem post_enquiries_responses (raw : Doc) (w : World) :
  match (post_enquiries helper raw w).1 with
  | UnprocessableEntity errors =>
      EnquiryIn_validate raw = inl errors ∧ errors ≠ []
  | Created out =>
      ∃ payload w1, EnquiryIn_validate raw = inr payload ∧
                    helper "enquiry" payload w = (inr (eo_id out), w1)
  | Failed status_code detail =>
      status_code = 500 ∧
      ∃ payload e0 w1, EnquiryIn_validate raw = inr payload ∧
                       helper "enquiry" payload w = (inl e0, w1) ∧
                       detail = "Failed to submit: " +:+ exc_str e0
  | InternalServerError => False
  end.
Proof.
  unfold post_enquiries.
  destruct (EnquiryIn_validate raw) as [errors|payload] eqn:Hraw; simpl.
  - split; [done|]. by eapply validate_enquiry_inl.
  - pose proof (create_enquiry_raw payload w) as Hrun.
    destruct (create_enquiry helper payload w) as [[e|out] w']; simpl.
    + destruct Hrun as (e0 & Hhelper & ->). simpl. eauto 10.
    + destruct Hrun as (w1 & Hhelper & _). eauto.
Qed.

End RouteMore.

(** ** Health / DB test *)

Section HealthMore.
Context `{Runtime}.
Variable getenv : string → option string.
Variable name_of : Database → option string.

Lemma py_slice_to_len (n : nat) (s : string) :
  (py_len (py_slice_to n s) ≤ n)%nat.
Proof.
  revert n. induction s as [|c s IH]; intros n; simpl; [lia|].
  destruct (is_continuation c) eqn:Hc; simpl.
  - rewrite Hc. apply IH.
  - destruct n as [|n]; simpl; [lia|]. rewrite Hc.
    specialize (IH n). lia.
Qed.

Lemma py_slice_to_prefix (n : nat) (s : string) :
  ∃ rest, s = py_slice_to n s +:+ rest.
Proof.
  revert n. induction s as [|c s IH]; intros n; simpl; [by exists ""|].
  destruct (is_continuation c).
  - destruct (IH n) as [rest Hrest]. exists rest.
    rewrite Hrest at 1. reflexivity.
  - destruct n as [|n]; [exists (String c s); reflexivity|].
    destruct (IH n) as [rest Hrest]. exists rest.
    rewrite Hrest at 1. reflexivity.
Qed.

Lemma py_slice_to_short (n : nat) (s : string) :
  (py_len s ≤ n)%nat → py_slice_to n s = s.
Proof.
  revert n. induction s as [|c s IH]; intros n; simpl; [done|].
  destruct (is_continuation c).
  - intros Hlen. f_equal. by apply IH.
  - destruct n as [|n]; [lia|]. intros Hlen. f_equal. apply IH. lia.
Qed.

(** the run of the handler on a configured store *)
Lemma test_database_configured (w : World) (d : Database) :
  db w = Some d →
  test_database getenv name_of w =
    let response :=
      mkHealthResponse "✅ Running" "✅ Available"
        (if py_bool (from_option VStr VNone (getenv "DATABASE_URL"))
         then "✅ Set" else "❌ Not Set")
        (default "✅ Connected" (name_of d)) "Connected" [] in
    (inr (match fault d (calls d) with
          | Some _ =>
              set_database
                ("⚠️ Connected but Error: " +:+
                   py_slice_to 50 (exc_str PyMongoError)) response
          | None =>
              set_database "✅ Connected & Working"
                (set_collections (take 10 ((map_to_list (collections d)).*1))
                   response)
          end),
     mkWorld (Some (called d)) (clock w) (reads w)).
Proof.
  intros Hdb. destruct w as [dbw clk r]. simpl in Hdb. subst dbw.
  unfold test_database, try_except, mbind, M_bind, get_db, on_db,
    list_collection_names.
  cbn [db clock reads]. by destruct (fault d (calls d)).
Qed.

(** The health check never raises and only reads: it always answers, with
    the backend reported as running, and the contents of the store and the
    clock are as before. Without a store the answer is the initial one, also
    for the address: [DATABASE_URL] is reported as not set, whether or not
    the variable is set. *)
Theorem test_database_answers (w : World) :
  ∃ response,
    (test_database getenv name_of w).1 = inr response ∧
    r_backend response = "✅ Running" ∧
    (∀ name, stored name (test_database getenv name_of w).2 = stored name w) ∧
    clock (test_database getenv name_of w).2 = clock w ∧
    reads (test_database getenv name_of w).2 = reads w ∧
    (db w = None →
     (test_database getenv name_of w).2 = w ∧
     response =
       mkHealthResponse "✅ Running" "❌ Not Available" "❌ Not Set"
         "❌ Not Set" "Not Connected" []).
Proof.
  destruct (db w) as [d|] eqn:Hdb.
  - rewrite (test_database_configured w d Hdb). cbv zeta. cbn [fst snd].
    eexists. split; [reflexivity|].
    split; [by destruct (fault d (calls d))|].
    unfold stored. rewrite Hdb. done.
  - destruct w as [dbw clk r]. simpl in Hdb. subst dbw.
    eexists. split; [reflexivity|]. done.
Qed.

(** When the store lists its collections, the answer reports it as
    connected and working and names at most ten collections, the first of
    the listing, each a collection of the store. *)
Theorem test_database_connected (w : World) (d : Database) :
  db w = Some d → fault d (calls d) = None →
  ∃ response,
    (test_database getenv name_of w).1 = inr response ∧
    r_database response = "✅ Connected & Working" ∧
    r_connection_status response = "Connected" ∧
    r_database_name response = default "✅ Connected" (name_of d) ∧
    r_collections response `prefix_of` (map_to_list (collections d)).*1 ∧
    (length (r_collections response) ≤ 10)%nat ∧
    (length (r_collections response)
       = length (map_to_list (collections d)) `min` 10)%nat ∧
    ∀ name, name ∈ r_collections response → is_Some (collections d !! name).
Proof.
  intros Hdb Hok. rewrite (test_database_configured w d Hdb), Hok.
  cbv zeta. cbn [fst]. eexists. split; [reflexivity|]. simpl.
  split; [done|]. split; [done|]. split; [done|].
  split; [apply prefix_take|].
  rewrite length_take, length_fmap.
  split; [lia|]. split; [lia|].
  intros name Hname. apply elem_of_take in Hname as (i & Hi & _).
  apply list_lookup_fmap_Some in Hi as ([k docs] & -> & Hi).
  apply list_elem_of_lookup_2, elem_of_map_to_list in Hi. by eexists.
Qed.

(** When the listing of the collections fails, the store is still
    reported as connected, with no collection, and the message carries at
    most the first 50 characters of the text of the exception. *)
Theorem test_database_store_error (w : World) (d : Database) :
  db w = Some d → is_Some (fault d (calls d)) →
  ∃ response shown,
    (test_database getenv name_of w).1 = inr response ∧
    r_database response = "⚠️ Connected but Error: " +:+ shown ∧
    (py_len shown ≤ 50)%nat ∧
    (∃ rest, exc_str PyMongoError = shown +:+ rest) ∧
    ((py_len (exc_str PyMongoError) ≤ 50)%nat →
     shown = exc_str PyMongoError) ∧
    r_connection_status response = "Connected" ∧
    r_collections response = [].
Proof.
  intros Hdb [k Hk]. rewrite (test_database_configured w d Hdb), Hk.
  cbv zeta. cbn [fst]. eexists. eexists. split; [reflexivity|]. simpl.
  split; [reflexivity|]. split; [apply py_slice_to_len|].
  split; [apply py_slice_to_prefix|]. split; [apply py_slice_to_short|]. done.
Qed.

End HealthMore.

(** ** The further properties at concrete inputs, on [Sample.runtime] *)

#[local] Existing Instance Sample.runtime.

(** [to_product_out_other_keys] at the key [in_stock] of a demo product. *)
Lemma to_product_out_other_keys_witness :
  ("in_stock" ∉ read_keys) ∧
  _to_product_out (<["in_stock" := VBool true]> product_complete) =
    _to_product_out product_complete ∧
  _to_product_out (delete "in_stock" product_complete) =
    _to_product_out product_complete.
Proof.
  assert (Hkey : "in_stock" ∉ read_keys).
  { apply (bool_decide_unpack _). vm_compute. exact I. }
  split; [exact Hkey|].
  exact (to_product_out_other_keys product_complete "in_stock" (VBool true)
           Hkey).
Defined.

(** [list_products_store_failure] on the store that cannot be reached. *)
Lemma list_products_store_failure_witness :
  db world_unreachable = Some store_unreachable ∧
  is_Some (fault store_unreachable (calls store_unreachable)) ∧
  (list_products (Some true) None world_unreachable).1 = inl PyMongoError.
Proof.
  assert (Hfault : is_Some (fault store_unreachable (calls store_unreachable))).
  { eexists. reflexivity. }
  split; [reflexivity|]. split; [exact Hfault|].
  exact (list_products_store_failure (Some true) None world_unreachable
           store_unreachable eq_refl Hfault).
Defined.

(** [list_products_matching] on the seeded store, for the featured
    products. *)
Lemma list_products_matching_witness :
  db world_seeded = Some store_seeded ∧
  fault store_seeded (calls store_seeded) = None ∧
  (let matching :=
     filter (λ doc, matches (products_query (Some true) None) doc = true)
       (collection store_seeded "product") in
   match (list_products (Some true) None world_seeded).1 with
   | inr outs =>
       ∃ docs, docs ≡ₚ matching ∧
               Forall2 (λ doc out, _to_product_out doc = inr out) docs outs
   | inl e =>
       ∃ doc errors, doc ∈ matching ∧ _to_product_out doc = inl errors ∧
                     e = PydanticError errors
   end).
Proof.
  split; [reflexivity|]. split; [reflexivity|].
  exact (list_products_matching (Some true) None world_seeded store_seeded
           eq_refl eq_refl).
Defined.

(** [list_products_unfiltered] on the seeded store. *)
Lemma list_products_unfiltered_witness :
  db world_seeded = Some store_seeded ∧
  fault store_seeded (calls store_seeded) = None ∧
  Forall (λ doc, is_Some (validation_result (_to_product_out doc)))
    (collection store_seeded "product") ∧
  ∃ outs docs,
    (list_products None None world_seeded).1 = inr outs ∧
    docs ≡ₚ collection store_seeded "product" ∧
    Forall2 (λ doc out, _to_product_out doc = inr out) docs outs ∧
    length outs = length (collection store_seeded "product").
Proof.
  assert (Hall : Forall (λ doc, is_Some (validation_result (_to_product_out doc)))
                   (collection store_seeded "product")).
  { apply (bool_decide_unpack _). vm_compute. exact I. }
  split; [reflexivity|]. split; [reflexivity|]. split; [exact Hall|].
  exact (list_products_unfiltered world_seeded store_seeded eq_refl eq_refl
           Hall).
Defined.

(** [seed_products_only_appends] on the empty store. *)
Lemma seed_products_only_appends_witness :
  db world_empty_store = Some store_empty ∧
  ∃ d', db (seed_products_if_needed world_empty_store).2 = Some d' ∧
        (∀ name, name ≠ "product" →
                 collection d' name = collection store_empty name) ∧
        collection store_empty "product" `prefix_of` collection d' "product" ∧
        (length (collection d' "product")
           ≤ length (collection store_empty "product") + 4)%nat.
Proof.
  split; [reflexivity|].
  exact (seed_products_only_appends world_empty_store store_empty eq_refl).
Defined.

(** [seed_products_twice] on the empty store. *)
Lemma seed_products_twice_witness :
  db world_empty_store = Some store_empty ∧
  collection store_empty "product" = [] ∧
  fault store_empty (calls store_empty) = None ∧
  fault store_empty (S (calls store_empty)) = None ∧
  (let w1 := (seed_products_if_needed world_empty_store).2 in
   let w2 := (seed_products_if_needed w1).2 in
   (seed_products_if_needed w1).1 = inr tt ∧
   (∀ name, stored name w2 = stored name w1) ∧
   length (stored "product" w2) = 4%nat).
Proof.
  do 4 (split; [reflexivity|]).
  exact (seed_products_twice world_empty_store store_empty eq_refl eq_refl
           eq_refl eq_refl).
Defined.

(** [seed_then_list] on the empty store. *)
Lemma seed_then_list_witness :
  db world_empty_store = Some store_empty ∧
  collection store_empty "product" = [] ∧
  fault store_empty (calls store_empty) = None ∧
  fault store_empty (S (calls store_empty)) = None ∧
  fault store_empty (S (S (calls store_empty))) = None ∧
  ∃ outs,
    (list_products None None
       (seed_products_if_needed world_empty_store).2).1 = inr outs ∧
    (λ out, (po_title out, po_price out, po_featured out)) <$> outs ≡ₚ
      [("Precision Laser‑Cut Signage", Some 149.0%float, true);
       ("3D Trophy – Metallic Finish", Some 249.0%float, true);
       ("3D‑Style Product Mockup", Some 99.0%float, true);
       ("Custom Keychains", Some 5.0%float, false)].
Proof.
  do 5 (split; [reflexivity|]).
  exact (seed_then_list world_empty_store store_empty eq_refl eq_refl eq_refl
           eq_refl eq_refl).
Defined.

(** [validate_enquiry_extra_keys] at a key that is no field. *)
Lemma validate_enquiry_extra_keys_witness :
  ("utm_source" ∉ enquiry_fields) ∧
  EnquiryIn_validate (<["utm_source" := VStr "ad"]> enquiry_valid) =
    EnquiryIn_validate enquiry_valid ∧
  Enquiry_validate (<["utm_source" := VStr "ad"]> enquiry_valid) =
    Enquiry_validate enquiry_valid.
Proof.
  assert (Hkey : "utm_source" ∉ enquiry_fields).
  { apply (bool_decide_unpack _). vm_compute. exact I. }
  split; [exact Hkey|].
  exact (validate_enquiry_extra_keys enquiry_valid "utm_source" (VStr "ad")
           Hkey).
Defined.

(** [EnquiryIn_quantity] on an enquiry for three pieces. *)
Lemma EnquiryIn_quantity_witness :
  EnquiryIn_validate enquiry_three =
    inr (mkEnquiryIn "A" "a@b.com" None None "Other" (Some 3) None "hi" None) ∧
  (∀ n, Some 3 = Some n → 1 ≤ n) ∧
  (Some 3 = None ↔
   enquiry_three !! "quantity" = None ∨
   enquiry_three !! "quantity" = Some VNone).
Proof.
  assert (Hvalid : EnquiryIn_validate enquiry_three =
    inr (mkEnquiryIn "A" "a@b.com" None None "Other" (Some 3) None "hi" None)).
  { vm_compute. reflexivity. }
  split; [exact Hvalid|].
  exact (EnquiryIn_quantity enquiry_three _ Hvalid).
Defined.

(** [EnquiryIn_missing_fields] at [name], on a body without it. *)
Lemma EnquiryIn_missing_fields_witness :
  enquiry_nameless !! "name" = None ∧
  ("name" ∈ required_fields →
   FieldError "name" missing
     ∈ validation_errors (EnquiryIn_validate enquiry_nameless)) ∧
  ("name" ∈ optional_fields →
   ∀ e, e ∈ validation_errors (EnquiryIn_validate enquiry_nameless) →
        loc e ≠ "name").
Proof.
  split; [reflexivity|].
  exact (EnquiryIn_missing_fields enquiry_nameless "name" eq_refl).
Defined.

(** [EnquiryIn_minimal] at the address [a@b.com]. *)
Lemma EnquiryIn_minimal_witness :
  validate_email "a@b.com" = Some "a@b.com" ∧
  EnquiryIn_validate
    (list_to_map [("name", VStr "A"); ("email", VStr "a@b.com");
                  ("product_type", VStr "Other"); ("message", VStr "hi")]) =
    inr (mkEnquiryIn "A" "a@b.com" None None "Other" None None "hi" None).
Proof.
  split; [reflexivity|].
  exact (EnquiryIn_minimal "A" "a@b.com" "a@b.com" "Other" "hi" eq_refl).
Defined.

(** [test_database_connected] on the seeded store. *)
Lemma test_database_connected_witness :
  db world_seeded = Some store_seeded ∧
  fault store_seeded (calls store_seeded) = None ∧
  ∃ response,
    (test_database (λ _, None) (λ _, Some "customprint") world_seeded).1 =
      inr response ∧
    r_database response = "✅ Connected & Working" ∧
    r_connection_status response = "Connected" ∧
    r_database_name response = default "✅ Connected" (Some "customprint") ∧
    r_collections response
      `prefix_of` (map_to_list (collections store_seeded)).*1 ∧
    (length (r_collections response) ≤ 10)%nat ∧
    (length (r_collections response)
       = length (map_to_list (collections store_seeded)) `min` 10)%nat ∧
    ∀ name, name ∈ r_collections response →
            is_Some (collections store_seeded !! name).
Proof.
  split; [reflexivity|]. split; [reflexivity|].
  exact (test_database_connected (λ _, None) (λ _, Some "customprint")
           world_seeded store_seeded eq_refl eq_refl).
Defined.

(** [test_database_store_error] on the store that cannot be reached. *)
Lemma test_database_store_error_witness :
  db world_unreachable = Some store_unreachable ∧
  is_Some (fault store_unreachable (calls store_unreachable)) ∧
  ∃ response shown,
    (test_database (λ _, None) (λ _, None) world_unreachable).1 =
      inr response ∧
    r_database response = "⚠️ Connected but Error: " +:+ shown ∧
    (py_len shown ≤ 50)%nat ∧
    (∃ rest, exc_str PyMongoError = shown +:+ rest) ∧
    ((py_len (exc_str PyMongoError) ≤ 50)%nat →
     shown = exc_str PyMongoError) ∧
    r_connection_status response = "Connected" ∧
    r_collections response = [].
Proof.
  assert (Hfault : is_Some (fault store_unreachable (calls store_unreachable))).
  { eexists. reflexivity. }
  split; [reflexivity|]. split; [exact Hfault|].
  exact (test_database_store_error (λ _, None) (λ _, None) world_unreachable
           store_unreachable eq_refl Hfault).
Defined.


(** C6. The body [{name: "A", email: "a@b.com", product_type: "Banana",
    message: "hi"}] fails a constraint of the enquiry schema, the set of
    product types, and is written all the same: the route, which validates
    against [main.EnquiryIn], runs the handler on it for any
    [create_document]; with [create_document] as the specification describes
    it, the enquiry collection of the empty store holds the document
    afterwards and the answer is [Created], not a validation failure. *)
Theorem unlisted_product_type_written :
  FieldError "product_type" (literal_error product_types)
    ∈ validation_errors (Enquiry_validate enquiry_unlisted) ∧
  (∀ (helper : string → EnquiryIn → M string) (w : World),
     post_enquiries helper enquiry_unlisted w =
       respond (create_enquiry helper
                  (mkEnquiryIn "A" "a@b.com" None None "Banana" None None
                     "hi" None) w)) ∧
  stored "enquiry" world_empty_store = [] ∧
  post_enquiries create_document enquiry_unlisted world_empty_store =
    (Created (mkEnquiryOut "0" 0),
     mkWorld
       (Some (mkDatabase
          {[ "enquiry" :=
               [<["_id" := VObjectId 0]>
                  (model_dump (mkEnquiryIn "A" "a@b.com" None None "Banana"
                                 None None "hi" None))] ]}
          (fault store_empty) 1 (fresh_oid store_empty) 1))
       (clock world_empty_store) 1).
Proof.
  split; [vm_compute; set_solver|]. split; [|split; [reflexivity|]].
  - intros helper w. unfold post_enquiries.
    replace (EnquiryIn_validate enquiry_unlisted) with
      (inr (mkEnquiryIn "A" "a@b.com" None None "Banana" None None "hi" None)
         : ValidationError + EnquiryIn) by (vm_compute; reflexivity).
    reflexivity.
  - vm_compute. reflexivity.
Qed.

(** C7, counterexample. A quantity that is no integer, the string ["3"], the
    float 3.0 or [True], passes the validation, as the integer it is read
    as. *)
Lemma quantity_non_integer_accepted :
  EnquiryIn_validate (<["quantity" := VStr "3"]> enquiry_valid) =
    inr (mkEnquiryIn "A" "a@b.com" None None "Other" (Some 3) None "hi" None) ∧
  EnquiryIn_validate (<["quantity" := VFloat 3.0]> enquiry_valid) =
    inr (mkEnquiryIn "A" "a@b.com" None None "Other" (Some 3) None "hi" None) ∧
  EnquiryIn_validate (<["quantity" := VBool true]> enquiry_valid) =
    inr (mkEnquiryIn "A" "a@b.com" None None "Other" (Some 1) None "hi" None).
Proof. repeat split; vm_compute; reflexivity. Qed.


(** The filters on the seeded store: [featured=false] with an empty
    [category] lists the one demo product that is not featured, of whatever
    category. *)
Lemma list_products_featured_false :
  po_title <$> validation_result
    (_to_product_out (default ∅ (head (stored "product" world_seeded)))) =
    Some "Precision Laser‑Cut Signage" ∧
  match (list_products (Some false) (Some "") world_seeded).1 with
  | inr outs => po_title <$> outs = ["Custom Keychains"]
  | inl _ => False
  end ∧
  match (list_products (Some true) (Some "3D Trophy") world_seeded).1 with
  | inr outs => po_title <$> outs = ["3D Trophy – Metallic Finish"]
  | inl _ => False
  end.
Proof.
  split; [vm_compute; reflexivity|]. split; vm_compute; reflexivity.
Qed.
